(** * ensureconda: resolution and installation of a conda-compatible executable

    A shallow embedding of [ensureconda/api.py] and [ensureconda/installer.py]
    and the properties their specification states about them.

    Python text is modelled by [string]; its characters are the code points
    below 256.  Everything the program does to the outside world (running a
    candidate, HTTP requests, sleeping, touching the file system) is an entry
    of an explicit trace, and what the outside world answers is read from an
    environment of oracles that see the trace so far. *)

From Stdlib Require Import List String Ascii Bool Arith ZArith NArith Lia.
From Stdlib Require Import Sorted Reals Lra.
Import ListNotations.

Local Open Scope string_scope.
Local Open Scope list_scope.

(** ** Python string operations used by the version probers *)

Module PyStr.

(** [str.isspace] on one character (code points below 256). *)
Definition isspace (c : ascii) : bool :=
  let n := nat_of_ascii c in
  (((9 <=? n) && (n <=? 13)) || ((28 <=? n) && (n <=? 32))
   || (n =? 133) || (n =? 160))%nat.

(** The line boundaries of [str.splitlines] (code points below 256). *)
Definition is_linebreak (c : ascii) : bool :=
  let n := nat_of_ascii c in
  (((10 <=? n) && (n <=? 13)) || ((28 <=? n) && (n <=? 30))
   || (n =? 133))%nat.

Definition CR : ascii := ascii_of_nat 13.
Definition LF : ascii := ascii_of_nat 10.

Fixpoint lstrip (s : string) : string :=
  match s with
  | EmptyString => EmptyString
  | String c s' => if isspace c then lstrip s' else s
  end.

Fixpoint rstrip (s : string) : string :=
  match s with
  | EmptyString => EmptyString
  | String c s' =>
      match rstrip s' with
      | EmptyString => if isspace c then EmptyString else String c EmptyString
      | r => String c r
      end
  end.

(** [s.strip()] *)
Definition strip (s : string) : string := rstrip (lstrip s).

(** [s.splitlines(keepends=False)]: a carriage return followed by a line
    feed is one boundary, and a boundary at the very end opens no line. *)
Fixpoint splitlines (s : string) : list string :=
  match s with
  | EmptyString => []
  | String c s' =>
      if is_linebreak c then
        EmptyString ::
          (match s' with
           | String c' s'' =>
               if (Ascii.eqb c CR && Ascii.eqb c' LF)%bool
               then splitlines s'' else splitlines s'
           | EmptyString => []
           end)
      else
        match splitlines s' with
        | [] => [String c EmptyString]
        | l :: ls => String c l :: ls
        end
  end.

(** [s.split()] without argument: the maximal runs of non-space
    characters.  [cur] is the run being read. *)
Fixpoint split_from (cur : string) (s : string) : list string :=
  match s with
  | EmptyString => if String.eqb cur EmptyString then [] else [cur]
  | String c s' =>
      if isspace c then
        (if String.eqb cur EmptyString then split_from EmptyString s'
         else cur :: split_from EmptyString s')
      else split_from (cur ++ String c EmptyString) s'
  end.

Definition split (s : string) : list string := split_from EmptyString s.

(** [s.startswith(p)] *)
Definition startswith (s p : string) : bool := String.prefix p s.

(** [l[-1]]: [None] stands for the IndexError of an empty list. *)
Definition last_item {A} (l : list A) : option A :=
  match rev l with
  | [] => None
  | x :: _ => Some x
  end.

End PyStr.

(** ** [packaging.version.Version] *)

(** The version library is not part of the program; the program uses three
    things of it: the constructor [Version(s)], which raises [InvalidVersion]
    on a string it rejects, and the comparisons [==], [<] and [>=], which
    compare the keys of two versions. *)
Class VersionLib : Type := {
  Version : Type;
  parse_version : string -> option Version;
  vcompare : Version -> Version -> comparison;
  vzero : Version
}.

(** What the theorems use of the library: ["0.0.0"] is accepted and the
    comparison is a total order. *)
Class VersionLaws (VL : VersionLib) : Prop := {
  parse_zero : parse_version "0.0.0" = Some vzero;
  vcompare_refl : forall a, vcompare a a = Eq;
  vcompare_antisym : forall a b, vcompare b a = CompOpp (vcompare a b);
  vcompare_trans : forall a b c,
      vcompare a b = Lt -> vcompare b c = Lt -> vcompare a c = Lt;
  vcompare_eq_l : forall a b c,
      vcompare a b = Eq -> vcompare a c = vcompare b c
}.

(** [a >= b] and [a < b] on versions *)
Definition version_ge `{VersionLib} (a b : Version) : bool :=
  match vcompare a b with Lt => false | _ => true end.

Definition version_lt `{VersionLib} (a b : Version) : bool :=
  match vcompare a b with Lt => true | _ => false end.

(** The release versions [N(.N)*] of PEP 440, the versions of the
    specification's data model: a version is its list of release numbers
    without the trailing zeros, as in the comparison key of the library, and
    two versions compare as these lists do. *)
Module Release.

Definition digit_of (c : ascii) : option N :=
  let n := nat_of_ascii c in
  if ((48 <=? n) && (n <=? 57))%nat then Some (N.of_nat (n - 48)) else None.

(** One release number: a non-empty run of decimal digits. *)
Fixpoint number_from (acc : N) (s : string) : option N :=
  match s with
  | EmptyString => Some acc
  | String c s' =>
      match digit_of c with
      | Some d => number_from (10 * acc + d)%N s'
      | None => None
      end
  end.

Definition number (s : string) : option N :=
  match s with
  | EmptyString => None
  | _ => number_from 0%N s
  end.

(** The dot-separated fields of [s]; [cur] is the field being read. *)
Fixpoint fields_from (cur : string) (s : string) : list string :=
  match s with
  | EmptyString => [cur]
  | String c s' =>
      if Ascii.eqb c "."%char then cur :: fields_from EmptyString s'
      else fields_from (cur ++ String c EmptyString) s'
  end.

Fixpoint numbers (fs : list string) : option (list N) :=
  match fs with
  | [] => Some []
  | f :: fs' =>
      match number f, numbers fs' with
      | Some n, Some ns => Some (n :: ns)
      | _, _ => None
      end
  end.

Fixpoint strip_zeros (ns : list N) : list N :=
  match ns with
  | [] => []
  | n :: ns' =>
      match strip_zeros ns' with
      | [] => if N.eqb n 0 then [] else [n]
      | r => n :: r
      end
  end.

Definition parse (s : string) : option (list N) :=
  option_map strip_zeros (numbers (fields_from EmptyString s)).

Fixpoint compare (a b : list N) : comparison :=
  match a, b with
  | [], [] => Eq
  | [], _ :: _ => Lt
  | _ :: _, [] => Gt
  | x :: a', y :: b' =>
      match N.compare x y with
      | Eq => compare a' b'
      | c => c
      end
  end.

#[export] Instance lib : VersionLib := {|
  Version := list N;
  parse_version := parse;
  vcompare := compare;
  vzero := []
|}.

End Release.


(** ** Data of the program *)

Definition bytes := list Byte.byte.

(** A [pathlib.Path] is its list of components. *)
Definition Path := list string.

(** [p / n] for a non-empty name [n] *)
Definition path_div (p : Path) (n : string) : Path := p ++ [n].

(** [p.with_name(n)] *)
Definition with_name (p : Path) (n : string) : Path := removelast p ++ [n].

(** [p.parent] *)
Definition path_parent (p : Path) : Path := removelast p.

(** [str(p)] *)
Definition path_str (sep : string) (p : Path) : string := String.concat sep p.

(** A [StrPath] is a string or a path object.  Only the empty string is
    falsy: path objects define neither [__bool__] nor [__len__]. *)
Inductive StrPath :=
| AsStr (s : string)
| AsPath (p : Path).

Definition truthy (exe : StrPath) : bool :=
  match exe with
  | AsStr s => negb (String.eqb s EmptyString)
  | AsPath _ => true
  end.

Inductive ToolKind := Mamba | Micromamba | Conda | CondaStandalone.

(** [AnacondaPkgAttr] and [AnacondaPkg] *)
Record AnacondaPkgAttr := {
  subdir : string;
  build_number : Z;
  timestamp : Z
}.

Record AnacondaPkg := {
  size : Z;
  attrs : AnacondaPkgAttr;
  type : string;
  version : string;
  download_url : string
}.

(** ** Exceptions, results, the trace *)

Inductive Exn :=
| CalledProcessError (returncode : Z)
| FileNotFoundError (what : string)
| OSError (what : string)
| InvalidVersion (s : string)
| IndexError
| KeyError (key : string)
| AttributeError
| HTTPError (status : Z)
| ConnectionError (what : string)
| JSONDecodeError
| ReadError
| TimeoutError (msg : string)
| RuntimeError (msg : string).

Inductive Result (A : Type) :=
| Ok (a : A)
| Raise (e : Exn).
Arguments Ok {A} a.
Arguments Raise {A} e.

(** What the program asks of the outside world. *)
Inductive Op :=
| Run (exe : StrPath)                 (* subprocess.check_output([exe, "--version"]) *)
| Get (url : string)                  (* requests.get(url, allow_redirects=True) *)
| Sleep (attempt : nat)               (* time.sleep(timeout) in iteration [attempt] *)
| Mkdir (p : Path)                    (* p.mkdir(parents=True, exist_ok=True) *)
| LockAcquire (lockfile : string)     (* entering filelock.FileLock(lockfile) *)
| LockRelease (lockfile : string)     (* leaving it *)
| OpenWb (p : Path)                   (* open(p, "wb") *)
| Write (p : Path) (data : bytes)     (* write to the file opened on p *)
| Close (p : Path)                    (* leaving the with block of open *)
| Stat (p : Path)                     (* os.stat(p) *)
| Chmod (p : Path) (mode : Z)         (* os.chmod(p, mode) *)
| Rename (src dst : Path)             (* os.rename(src, dst) *)
| CondaOpen (url : string)            (* conda_reader_for_url(url) *)
| CondaStream (url : string)          (* stream_conda_component(..., "pkg") *)
| CondaClose (url : string).          (* leaving closing(conda) *)

Inductive Event :=
| Did (o : Op)
| Failed (o : Op) (e : Exn).

(** The trace so far, oldest event first. *)
Definition World := list Event.

Definition op_of (ev : Event) : Op :=
  match ev with Did o => o | Failed o _ => o end.

(** An HTTP response: [resp.json()] is the listing already decoded, or the
    exception decoding raises. *)
Record Response := {
  status_code : Z;
  content : bytes;
  json : Result (list AnacondaPkg)
}.

(** A member of an archive: [extractfile] gives a file object on a regular
    file and [None] on anything else. *)
Inductive TarMember :=
| RegFile (data : bytes)
| NotAFile.

(** The host and the outside world.  The functions of [ensureconda.resolve]
    ([is_windows], [platform_subdir], [site_path], the four generators of
    candidates) are given by the host; every answer of the world may depend
    on all that happened before. *)
Record Env := {
  is_windows : bool;
  platform_subdir : string;
  site_path : Path;
  environ_channel : option string;
  executables : ToolKind -> World -> list StrPath;
  check_output : World -> StrPath -> Result string;
  requests_get : World -> string -> Result Response;
  uuid4_hex : World -> string;
  os_stat : World -> Path -> Result Z;
  fault : World -> Op -> option Exn;
  tarfile_open : bytes -> Result (list (string * TarMember));
  conda_stream : World -> string -> Result (list (string * TarMember))
}.

(** ** The monad of the program: state (the trace) and exceptions *)

Definition M (A : Type) : Type := World -> Result A * World.

Definition ret {A} (a : A) : M A := fun w => (Ok a, w).

Definition raise {A} (e : Exn) : M A := fun w => (Raise e, w).

Definition bind {A B} (m : M A) (f : A -> M B) : M B :=
  fun w =>
    match m w with
    | (Ok a, w') => f a w'
    | (Raise e, w') => (Raise e, w')
    end.

Declare Scope prog_scope.
Delimit Scope prog_scope with prog.
Notation "x <- m ;; k" := (bind m (fun x => k))
  (at level 61, m at next level, right associativity) : prog_scope.
Notation "m ;; k" := (bind m (fun _ => k))
  (at level 61, right associativity) : prog_scope.
Local Open Scope prog_scope.

(** A result computed without the world. *)
Definition lift {A} (r : Result A) : M A := fun w => (r, w).

(** Leaving a [with] block: [fin] runs on every exit of [body]; an exception
    of [fin] replaces the outcome of [body]. *)
Definition try_finally {A} (body : M A) (fin : M unit) : M A :=
  fun w =>
    match body w with
    | (r, w1) =>
        match fin w1 with
        | (Ok _, w2) => (r, w2)
        | (Raise e, w2) => (Raise e, w2)
        end
    end.

(** The events a run adds to the trace [w]. *)
Definition events_since (w w' : World) : list Event :=
  skipn (List.length w) w'.

(** ** installer.py *)

(** [max(a, b)] of Python: the first argument, unless the second is greater. *)
Definition py_max (a b : R) : R := if Rlt_dec a b then b else a.

(** [timeout = max(math.e ** (i / 4), 15)] *)
Definition retry_timeout (i : nat) : R :=
  py_max (Rpower (exp 1) (INR i / 4)) 15.

(** The duration of a sleep of the trace, in seconds. *)
Definition sleep_seconds (ev : Event) : option R :=
  match ev with
  | Did (Sleep i) => Some (retry_timeout i)
  | _ => None
  end.

(** [stat.S_IXUSR] *)
Definition S_IXUSR : Z := 64.

(** [resp.raise_for_status()] raises for the status codes 400 to 599. *)
Definition is_http_error (resp : Response) : bool :=
  ((400 <=? status_code resp) && (status_code resp <? 600))%Z.

Section Installer.

Variable env : Env.

(** An operation without result: it happens, or it raises. *)
Definition perform (o : Op) : M unit :=
  fun w =>
    match fault env w o with
    | None => (Ok tt, w ++ [Did o])
    | Some e => (Raise e, w ++ [Failed o e])
    end.

(** An operation whose result the world decides. *)
Definition ask {A} (o : Op) (answer : World -> Result A) : M A :=
  fun w =>
    match answer w with
    | Ok a => (Ok a, w ++ [Did o])
    | Raise e => (Raise e, w ++ [Failed o e])
    end.

Definition time_sleep (i : nat) : M unit :=
  fun w => (Ok tt, w ++ [Did (Sleep i)]).

(** The body of the loop [for i in range(n)] of [request_url_with_retry],
    over the values of [i] still to come. *)
Fixpoint retry_loop (url : string) (range : list nat) : M Response :=
  match range with
  | [] =>
      raise (TimeoutError ("Could not retrieve " ++ url ++ " in 10 tries"))
  | i :: range' =>
      resp <- ask (Get url) (fun w => requests_get env w url) ;;
      if is_http_error resp then
        if (status_code resp =? 500)%Z then
          time_sleep i ;;
          retry_loop url range'
        else raise (HTTPError (status_code resp))
      else ret resp
  end.

Definition request_url_with_retry (url : string) : M Response :=
  let n := 10%nat in
  retry_loop url (seq 0 n).

Definition exe_suffix : string :=
  if is_windows env then ".exe" else EmptyString.

Definition path_sep : string :=
  if is_windows env then "\" else "/".

(** [with filelock.FileLock(lockfile): body] *)
Definition with_FileLock {A} (lockfile : string) (body : M A) : M A :=
  perform (LockAcquire lockfile) ;;
  try_finally body (perform (LockRelease lockfile)).

(** [with open(p, "wb") as fo: body] *)
Definition with_open_wb {A} (p : Path) (body : M A) : M A :=
  perform (OpenWb p) ;;
  try_finally body (perform (Close p)).

(** [uuid.uuid4().hex] *)
Definition uuid4 : M string := fun w => (Ok (uuid4_hex env w), w).

(** The context manager [new_executable]: [body] is the block of the [with]
    statement that uses it, run at the [yield] with the file object opened on
    the temporary file; an exception of the block is thrown at the [yield]. *)
Definition new_executable {A} (target_filename : Path) (body : Path -> M A)
  : M A :=
  with_FileLock (path_str path_sep target_filename ++ ".lock")
    (hex <- uuid4 ;;
     let temp_filename := with_name target_filename hex in
     r <- with_open_wb temp_filename (body temp_filename) ;;
     st_mode <- ask (Stat temp_filename)
                    (fun w => os_stat env w temp_filename) ;;
     perform (Chmod temp_filename (Z.lor st_mode S_IXUSR)) ;;
     perform (Rename temp_filename target_filename) ;;
     ret r).

(** [fo.read()]: [fo] is [None] when [extractfile] found no regular file. *)
Definition fo_read (fo : option bytes) : M bytes :=
  match fo with
  | Some data => ret data
  | None => raise AttributeError
  end.

Definition write_executable_from_file_object
    (fo : option bytes) (dest_filename : string) : M Path :=
  perform (Mkdir (site_path env)) ;;
  let target_path := path_div (site_path env) dest_filename in
  new_executable target_path
    (fun exe_fo => data <- fo_read fo ;; perform (Write exe_fo data)) ;;
  ret target_path.

(** [tf.extractfile(filename)]: the last member of that name, [KeyError]
    when there is none. *)
Definition extractfile (members : list (string * TarMember))
    (filename : string) : M (option bytes) :=
  match find (fun m => String.eqb (fst m) filename) (rev members) with
  | None => raise (KeyError filename)
  | Some (_, RegFile data) => ret (Some data)
  | Some (_, NotAFile) => ret None
  end.

Definition extract_files_from_tar_bz2
    (tarball : bytes) (filename dest_filename : string) : M Path :=
  tf <- lift (tarfile_open env tarball) ;;
  fo <- extractfile tf filename ;;
  match fo with
  | None => raise (RuntimeError "Could not extract executable!")
  | Some _ => write_executable_from_file_object fo dest_filename
  end.

(** The loop of [stream_conda_executable] over the members of the ["pkg"]
    component, up to the member the loop returns at. *)
Fixpoint stream_loop (members : list (string * TarMember))
    (dest_filename : string) : M Path :=
  match members with
  | [] =>
      raise (RuntimeError
               "Could not find conda.exe in the conda-standalone package")
  | (name, member) :: members' =>
      if String.eqb name "standalone_conda/conda.exe" then
        let fo := match member with
                  | RegFile data => Some data
                  | NotAFile => None
                  end in
        write_executable_from_file_object fo dest_filename
      else stream_loop members' dest_filename
  end.

Definition stream_conda_executable (url : string) : M Path :=
  let dest_filename := ("conda_standalone" ++ exe_suffix)%string in
  perform (CondaOpen url) ;;
  try_finally
    (members <- ask (CondaStream url) (fun w => conda_stream env w url) ;;
     stream_loop members dest_filename)
    (perform (CondaClose url)).

End Installer.

(** *** Ordering the candidates of [install_conda_exe] *)

Section Ordering.

Context {VL : VersionLib}.

(** The sort key [(Version(info.version), build_number, timestamp)] *)
Definition SortKey : Type := Version * Z * Z.

(** [k1 < k2] on these tuples: the first components that differ decide. *)
Definition key_lt (k1 k2 : SortKey) : bool :=
  match k1, k2 with
  | (v1, b1, t1), (v2, b2, t2) =>
      match vcompare v1 v2 with
      | Lt => true
      | Gt => false
      | Eq =>
          match Z.compare b1 b2 with
          | Lt => true
          | Gt => false
          | Eq => Z.ltb t1 t2
          end
      end
  end.

(** [list.sort(key=...)] is a stable sort that compares keys with [<] only;
    the keys are computed once, for every element, before any comparison. *)
Fixpoint insert_sorted {A} (x : SortKey * A) (l : list (SortKey * A))
  : list (SortKey * A) :=
  match l with
  | [] => [x]
  | y :: l' =>
      if key_lt (fst y) (fst x) then y :: insert_sorted x l'
      else x :: y :: l'
  end.

Fixpoint stable_sort {A} (l : list (SortKey * A)) : list (SortKey * A) :=
  match l with
  | [] => []
  | x :: l' => insert_sorted x (stable_sort l')
  end.

(** [Version(s)] *)
Definition Version_of (s : string) : M Version :=
  match parse_version s with
  | Some v => ret v
  | None => raise (InvalidVersion s)
  end.

Definition sort_key (info : AnacondaPkg) : M SortKey :=
  v <- Version_of (version info) ;;
  ret (v, build_number (attrs info), timestamp (attrs info)).

Fixpoint keyed (infos : list AnacondaPkg) : M (list (SortKey * AnacondaPkg)) :=
  match infos with
  | [] => ret []
  | info :: infos' =>
      k <- sort_key info ;;
      ks <- keyed infos' ;;
      ret ((k, info) :: ks)
  end.

(** [candidates.sort(key=lambda info: ...)] *)
Definition sort_candidates (candidates : list AnacondaPkg)
  : M (list AnacondaPkg) :=
  ks <- keyed candidates ;;
  ret (map snd (stable_sort ks)).

Variable env : Env.

Definition install_conda_exe : M (option Path) :=
  let channel := match environ_channel env with
                 | Some c => c
                 | None => "anaconda"
                 end in
  let url := ("https://api.anaconda.org/package/" ++ channel
              ++ "/conda-standalone/files")%string in
  resp <- request_url_with_retry env url ;;
  let subdir' := platform_subdir env in
  file_infos <- lift (json resp) ;;
  let candidates :=
    filter (fun info => String.eqb (subdir (attrs info)) subdir') file_infos in
  candidates <- sort_candidates candidates ;;
  if (List.length candidates =? 0)%nat then
    raise (RuntimeError
             ("No conda-standalone package found for " ++ subdir')%string)
  else
    match PyStr.last_item candidates with
    | None => raise IndexError
    | Some chosen =>
        let url := ("https:" ++ download_url chosen)%string in
        path_to_written_executable <- stream_conda_executable env url ;;
        ret (Some path_to_written_executable)
    end.

Definition install_micromamba : M (option Path) :=
  let subdir' := platform_subdir env in
  let url := ("https://micro.mamba.pm/api/micromamba/" ++ subdir'
              ++ "/latest")%string in
  resp <- request_url_with_retry env url ;;
  let tarball := content resp in
  let filename := if is_windows env then "Library/bin/micromamba.exe"
                  else "bin/micromamba" in
  p <- extract_files_from_tar_bz2 env tarball filename
         ("micromamba" ++ exe_suffix env)%string ;;
  ret (Some p).

End Ordering.

(** ** api.py *)

Section Api.

Context {VL : VersionLib}.
Variable env : Env.

(** [subprocess.check_output([exe, "--version"], encoding="utf-8")]: raises
    when the binary is missing or exits with a non-zero status. *)
Definition subprocess_check_output (exe : StrPath) : M string :=
  ask (Run exe) (fun w => check_output env w exe).

(** [Version(line.split()[-1])] *)
Definition version_of_line (line : string) : M Version :=
  match PyStr.last_item (PyStr.split line) with
  | None => raise IndexError
  | Some token => Version_of token
  end.

Definition determine_micromamba_version (exe : StrPath) : M Version :=
  out <- subprocess_check_output exe ;;
  let out := PyStr.strip out in
  match PyStr.splitlines out with
  | line :: _ => version_of_line line
  | [] => Version_of "0.0.0"
  end.

Definition determine_mamba_version (exe : StrPath) : M Version :=
  out <- subprocess_check_output exe ;;
  let out := PyStr.strip out in
  match find (fun line => PyStr.startswith line "mamba")
             (PyStr.splitlines out) with
  | Some line => version_of_line line
  | None => determine_micromamba_version exe
  end.

Definition determine_conda_version (exe : StrPath) : M Version :=
  out <- subprocess_check_output exe ;;
  let out := PyStr.strip out in
  match find (fun line => PyStr.startswith line "conda")
             (PyStr.splitlines out) with
  | Some line => version_of_line line
  | None => Version_of "0.0.0"
  end.

(** The keyword arguments of [ensureconda]. *)
Record Config := {
  mamba : bool;
  micromamba : bool;
  conda : bool;
  conda_exe : bool;
  no_install : bool;
  min_conda_version : option Version;
  min_mamba_version : option Version
}.

Definition version_constraint_met (executable : StrPath)
    (min_version : option Version) (version_fn : StrPath -> M Version)
  : M bool :=
  match min_version with
  | None => ret true
  | Some min_version =>
      version <- version_fn executable ;;
      ret (version_ge version min_version)
  end.

(** [for exe in exes: if exe and met(exe): return exe]; [None] when the loop
    runs to its end. *)
Fixpoint for_candidates (met : StrPath -> M bool) (exes : list StrPath)
  : M (option StrPath) :=
  match exes with
  | [] => ret None
  | exe :: exes' =>
      if truthy exe then
        ok <- met exe ;;
        if ok then ret (Some exe) else for_candidates met exes'
      else for_candidates met exes'
  end.

(** Starting one of the generators of [ensureconda.resolve]. *)
Definition resolve (k : ToolKind) : M (list StrPath) :=
  fun w => (Ok (executables env k w), w).

(** [if maybe_exe is not None and met(maybe_exe): return maybe_exe] *)
Definition check_installed (met : StrPath -> M bool)
    (maybe_exe : option Path) : M (option StrPath) :=
  match maybe_exe with
  | None => ret None
  | Some p =>
      ok <- met (AsPath p) ;;
      if ok then ret (Some (AsPath p)) else ret None
  end.

(** [r] when it carries the value a [return] statement gave, else [next]. *)
Definition or_else (r : option StrPath) (next : M (option StrPath))
  : M (option StrPath) :=
  match r with
  | Some exe => ret (Some exe)
  | None => next
  end.

Definition ensureconda (cfg : Config) : M (option StrPath) :=
  let conda_constraints_met exe :=
    version_constraint_met exe (min_conda_version cfg)
      determine_conda_version in
  let mamba_constraints_met exe :=
    version_constraint_met exe (min_mamba_version cfg)
      determine_mamba_version in
  let micromamba_constraints_met exe :=
    version_constraint_met exe (min_mamba_version cfg)
      determine_micromamba_version in
  r <- (if mamba cfg then
          exes <- resolve Mamba ;;
          for_candidates mamba_constraints_met exes
        else ret None) ;;
  or_else r (
  r <- (if micromamba cfg then
          exes <- resolve Micromamba ;;
          r <- for_candidates micromamba_constraints_met exes ;;
          or_else r (
            if negb (no_install cfg) then
              maybe_exe <- install_micromamba env ;;
              check_installed micromamba_constraints_met maybe_exe
            else ret None)
        else ret None) ;;
  or_else r (
  r <- (if conda cfg then
          exes <- resolve Conda ;;
          for_candidates conda_constraints_met exes
        else ret None) ;;
  or_else r (
  r <- (if conda_exe cfg then
          exes <- resolve CondaStandalone ;;
          r <- for_candidates conda_constraints_met exes ;;
          or_else r (
            if negb (no_install cfg) then
              maybe_exe <- install_conda_exe env ;;
              check_installed conda_constraints_met maybe_exe
            else ret None)
        else ret None) ;;
  or_else r (ret None)))).

End Api.

Arguments Config {VL}.

(** ** The orchestrator as the specification words it

    One traversal of the tool kinds in priority order; per kind, the first
    candidate whose version satisfies the constraint of the kind; for the
    kinds that have an installer, one installation and one re-check when no
    candidate satisfies and installation is permitted. *)

Section Orchestrator.

Context {VL : VersionLib}.
Variable env : Env.
Variable cfg : Config.

Definition priority : list ToolKind :=
  [Mamba; Micromamba; Conda; CondaStandalone].

Definition enabled (k : ToolKind) : bool :=
  match k with
  | Mamba => mamba cfg
  | Micromamba => micromamba cfg
  | Conda => conda cfg
  | CondaStandalone => conda_exe cfg
  end.

Definition constraint (k : ToolKind) : option Version :=
  match k with
  | Mamba | Micromamba => min_mamba_version cfg
  | Conda | CondaStandalone => min_conda_version cfg
  end.

Definition prober (k : ToolKind) : StrPath -> M Version :=
  match k with
  | Mamba => determine_mamba_version env
  | Micromamba => determine_micromamba_version env
  | Conda | CondaStandalone => determine_conda_version env
  end.

Definition installer (k : ToolKind) : option (M (option Path)) :=
  match k with
  | Micromamba => Some (install_micromamba env)
  | CondaStandalone => Some (install_conda_exe env)
  | Mamba | Conda => None
  end.

Definition satisfies (k : ToolKind) (exe : StrPath) : M bool :=
  version_constraint_met exe (constraint k) (prober k).

Fixpoint first_satisfying (k : ToolKind) (exes : list StrPath)
  : M (option StrPath) :=
  match exes with
  | [] => ret None
  | exe :: exes' =>
      ok <- satisfies k exe ;;
      if ok then ret (Some exe) else first_satisfying k exes'
  end.

Definition install_and_recheck (k : ToolKind) (install : M (option Path))
  : M (option StrPath) :=
  installed <- install ;;
  match installed with
  | None => ret None
  | Some p =>
      ok <- satisfies k (AsPath p) ;;
      ret (if ok then Some (AsPath p) else None)
  end.

Definition spec_step (k : ToolKind) : M (option StrPath) :=
  exes <- resolve env k ;;
  found <- first_satisfying k exes ;;
  match found, installer k with
  | Some exe, _ => ret (Some exe)
  | None, Some install =>
      if no_install cfg then ret None else install_and_recheck k install
  | None, None => ret None
  end.

Fixpoint spec_traverse (kinds : list ToolKind) : M (option StrPath) :=
  match kinds with
  | [] => ret None
  | k :: kinds' =>
      if enabled k then
        r <- spec_step k ;;
        match r with
        | Some exe => ret (Some exe)
        | None => spec_traverse kinds'
        end
      else spec_traverse kinds'
  end.

Definition ensureconda_spec : M (option StrPath) := spec_traverse priority.

End Orchestrator.

(** ** Concrete hosts and worlds *)

Module Example.

Import Release.

Definition nl : string := String PyStr.LF EmptyString.

Definition site : Path :=
  [EmptyString; "home"; "user"; ".local"; "share"; "ensure-conda"].

(** A Linux host on which nothing is installed, nothing answers and no
    operation of the file system fails. *)
Definition bare : Env := {|
  is_windows := false;
  platform_subdir := "linux-64";
  site_path := site;
  environ_channel := None;
  executables := fun _ _ => [];
  check_output := fun _ exe => Raise (FileNotFoundError "--version");
  requests_get := fun _ _ => Raise (ConnectionError "unreachable");
  uuid4_hex := fun _ => "0f1e2d3c4b5a69788796a5b4c3d2e1f0";
  os_stat := fun _ _ => Ok 420%Z;
  fault := fun _ _ => None;
  tarfile_open := fun _ => Raise ReadError;
  conda_stream := fun _ _ => Raise ReadError
|}.

(** [bare] with the given candidates and the given answers of the
    executables. *)
Definition with_tools (exes : ToolKind -> list StrPath)
    (run : StrPath -> Result string) : Env := {|
  is_windows := is_windows bare;
  platform_subdir := platform_subdir bare;
  site_path := site_path bare;
  environ_channel := environ_channel bare;
  executables := fun k _ => exes k;
  check_output := fun _ exe => run exe;
  requests_get := requests_get bare;
  uuid4_hex := uuid4_hex bare;
  os_stat := os_stat bare;
  fault := fault bare;
  tarfile_open := tarfile_open bare;
  conda_stream := conda_stream bare
|}.

(** The number of requests made so far. *)
Definition gets_so_far (w : World) : nat :=
  List.length
    (filter (fun ev => match op_of ev with Get _ => true | _ => false end) w).

(** [bare] with a server that answers the n-th request with the n-th entry
    of [answers], and fails to connect after them. *)
Definition with_server (answers : list Response)
    (members : list (string * TarMember)) : Env := {|
  is_windows := is_windows bare;
  platform_subdir := platform_subdir bare;
  site_path := site_path bare;
  environ_channel := environ_channel bare;
  executables := executables bare;
  check_output := check_output bare;
  requests_get := fun w _ =>
    match nth_error answers (gets_so_far w) with
    | Some resp => Ok resp
    | None => Raise (ConnectionError "unreachable")
    end;
  uuid4_hex := uuid4_hex bare;
  os_stat := os_stat bare;
  fault := fault bare;
  tarfile_open := fun _ => Ok members;
  conda_stream := fun _ _ => Ok members
|}.

Definition response (status : Z) (listing : list AnacondaPkg) : Response :=
  {| status_code := status; content := []; json := Ok listing |}.

Definition record (v : string) (build ts : Z) (sub file : string)
  : AnacondaPkg :=
  {| size := 0;
     attrs := {| subdir := sub; build_number := build; timestamp := ts |};
     type := "conda";
     version := v;
     download_url := ("//api.anaconda.org/download/" ++ file)%string
  |}.

(** The listing of the specification's example. *)
Definition older : AnacondaPkg := record "1.0" 1 100 "linux-64" "a.conda".
Definition newer : AnacondaPkg := record "1.2" 0 50 "linux-64" "b.conda".
Definition foreign : AnacondaPkg := record "1.2" 0 90 "osx-64" "c.conda".

Definition listing : list AnacondaPkg := [older; newer; foreign].

(** A record whose version string no version parser accepts. *)
Definition malformed : AnacondaPkg :=
  record "not-a-version" 3 200 "linux-64" "d.conda".

(** The package of conda-standalone. *)
Definition package : list (string * TarMember) :=
  [("info/index.json", RegFile []);
   ("standalone_conda/conda.exe", RegFile [Byte.x7f; Byte.x45])].

Definition mamba_a : StrPath := AsStr "/opt/a/bin/mamba".
Definition mamba_b : StrPath := AsStr "/opt/b/bin/mamba".
Definition conda_a : StrPath := AsStr "/opt/a/bin/conda".
Definition conda_b : StrPath := AsStr "/opt/b/bin/conda".

(** The output of [mamba --version] of mamba 1 and of mamba 2. *)
Definition mamba_v1_output : string := "mamba 1.4.7" ++ nl ++ "conda 23.5.0".
Definition mamba_v2_output : string := "2.0.8".

(** A host whose only executable is [mamba_a], which prints [out]. *)
Definition mamba_host (out : string) : Env :=
  with_tools (fun k => match k with Mamba => [mamba_a] | _ => [] end)
             (fun _ => Ok out).

(** Two mamba executables: the first exits with status 1, the second is
    mamba 1.4.7. *)
Definition broken_first : Env :=
  with_tools (fun k => match k with Mamba => [mamba_a; mamba_b] | _ => [] end)
             (fun exe => match exe with
                         | AsStr "/opt/a/bin/mamba" =>
                             Raise (CalledProcessError 1)
                         | _ => Ok mamba_v1_output
                         end).

(** Two conda executables: the first prints no version line, the second is
    conda 23.5.0. *)
Definition silent_first : Env :=
  with_tools (fun k => match k with Conda => [conda_a; conda_b] | _ => [] end)
             (fun exe => match exe with
                         | AsStr "/opt/a/bin/conda" => Ok "usage: conda"
                         | _ => Ok "conda 23.5.0"
                         end).

Definition config (install : bool) (min_conda min_mamba : option (list N))
  : Config := {|
  mamba := true;
  micromamba := true;
  conda := true;
  conda_exe := true;
  no_install := negb install;
  min_conda_version := min_conda;
  min_mamba_version := min_mamba
|}.

End Example.

(** ** Vocabulary of the statements about traces *)

(** Every run of [m] extends the trace, by events that satisfy [P]. *)
Definition emits {A} (P : Event -> Prop) (m : M A) : Prop :=
  forall w, exists evs, snd (m w) = w ++ evs /\ Forall P evs.

(** An event that is not the run of an executable. *)
Definition not_a_run (ev : Event) : Prop :=
  match op_of ev with Run _ => False | _ => True end.

(** A failed run of an executable ends the computation with the exception
    of the run. *)
Definition probe_failure_aborts {A} (m : M A) : Prop :=
  forall w, exists evs,
    snd (m w) = w ++ evs
    /\ forall exe e, In (Failed (Run exe) e) evs ->
         fst (m w) = Raise e /\ exists pre, evs = pre ++ [Failed (Run exe) e].

(** The number of requests in a list of events. *)
Definition attempts (evs : list Event) : nat :=
  List.length
    (filter (fun ev => match op_of ev with Get _ => true | _ => false end)
       evs).

(** What [k] attempts answered with status 500 add to the trace, the first
    of them being iteration [i0] of the loop. *)
Definition retries (url : string) (i0 k : nat) : list Event :=
  flat_map (fun j => [Did (Get url); Did (Sleep j)]) (seq i0 k).

(** A sleep of the trace belongs to an iteration from [lo] up to [hi]. *)
Definition sleeps_within (lo hi : nat) (ev : Event) : Prop :=
  forall o i, op_of ev = o -> o = Sleep i -> (lo <= i < hi)%nat.

(** ** Vocabulary of the statements about [install_conda_exe] *)

(** The address of the listing. *)
Definition listing_url (env : Env) : string :=
  "https://api.anaconda.org/package/"
  ++ match environ_channel env with Some c => c | None => "anaconda" end
  ++ "/conda-standalone/files".

(** The records of a listing that are for the host. *)
Definition for_host (env : Env) (infos : list AnacondaPkg)
  : list AnacondaPkg :=
  filter (fun info => String.eqb (subdir (attrs info)) (platform_subdir env))
    infos.

(** The sort key of a record whose version string is accepted. *)
Definition key_of {VL : VersionLib} (info : AnacondaPkg) : option SortKey :=
  match parse_version (version info) with
  | Some v => Some (v, build_number (attrs info), timestamp (attrs info))
  | None => None
  end.

(** What [install_conda_exe] does once it has chosen a record. *)
Definition download (env : Env) (chosen : AnacondaPkg) : M (option Path) :=
  (p <- stream_conda_executable env ("https:" ++ download_url chosen) ;;
   ret (Some p))%prog.

(** The error of an empty set of candidates. *)
Definition no_package_found (env : Env) : Exn :=
  RuntimeError ("No conda-standalone package found for " ++ platform_subdir env).

(** Comparisons that are total orders. *)
Record Order {T : Type} (cmp : T -> T -> comparison) : Prop := {
  order_antisym : forall a b, cmp b a = CompOpp (cmp a b);
  order_trans : forall a b c, cmp a b = Lt -> cmp b c = Lt -> cmp a c = Lt;
  order_eq_l : forall a b c, cmp a b = Eq -> cmp a c = cmp b c
}.

(** The lexicographic product of two comparisons. *)
Definition lex {A B : Type} (cmpA : A -> A -> comparison)
    (cmpB : B -> B -> comparison) (x y : A * B) : comparison :=
  match cmpA (fst x) (fst y) with
  | Eq => cmpB (snd x) (snd y)
  | c => c
  end.

(** The comparison of two sort keys, component by component. *)
Definition key_compare {VL : VersionLib} : SortKey -> SortKey -> comparison :=
  lex (lex vcompare Z.compare) Z.compare.

(** The order of the sort: [x] may stand before [y]. *)
Definition before {VL : VersionLib} {A} (x y : SortKey * A) : Prop :=
  key_lt (fst y) (fst x) = false.

(** ** Vocabulary of the statements about the placement of an executable *)

(** An event that opens [p] for writing, or writes to the file opened
    on [p]. *)
Definition writes_in_place (p : Path) (ev : Event) : Prop :=
  match op_of ev with
  | OpenWb q => q = p
  | Write q _ => q = p
  | _ => False
  end.

(** The trace of a placement of [data] at [target] through [temp] that got
    as far as the rename; [rel] is the release of the lock. *)
Definition placement (site : Path) (lock : string) (temp target : Path)
    (data : bytes) (st_mode : Z) (rel : Event) : list Event :=
  [ Did (Mkdir site);
    Did (LockAcquire lock);
    Did (OpenWb temp);
    Did (Write temp data);
    Did (Close temp);
    Did (Stat temp);
    Did (Chmod temp (Z.lor st_mode S_IXUSR));
    Did (Rename temp target);
    rel ].

(** An event of the network: a request, a sleep, the package stream. *)
Definition net_event (ev : Event) : Prop :=
  match op_of ev with
  | Get _ | Sleep _ | CondaOpen _ | CondaStream _ | CondaClose _ => True
  | _ => False
  end.

(** The events from [w] to [w'] are events of the network around at most one
    run of [write_executable_from_file_object]. *)
Definition one_placement (env : Env) (w w' : World) : Prop :=
  exists net post,
    Forall net_event net /\ Forall net_event post
    /\ (w' = w ++ net ++ post
        \/ exists fo dest,
            w' = snd (write_executable_from_file_object env fo dest (w ++ net))
                 ++ post).

(** Every run of [m] is such. *)
Definition placing {A} (env : Env) (m : M A) : Prop :=
  forall w, one_placement env w (snd (m w)).

(** ** The search without the world

    When every candidate answers, always with the same version, and nothing
    is installed, the result of the traversal is a function of the
    candidates [cands] and their versions [ver]. *)

Section PureSearch.

Context {VL : VersionLib}.
Variable cfg : Config.
Variable cands : ToolKind -> list StrPath.
Variable ver : ToolKind -> StrPath -> Version.

(** [v] satisfies the optional minimum. *)
Definition meets (min_version : option Version) (v : Version) : bool :=
  match min_version with
  | None => true
  | Some m => version_ge v m
  end.

(** The first candidate of kind [k] whose version satisfies the constraint
    of the kind. *)
Definition first_meeting (k : ToolKind) : option StrPath :=
  find (fun exe => meets (constraint cfg k) (ver k exe)) (cands k).

(** The first such candidate of the first enabled kind that has one. *)
Fixpoint first_found (kinds : list ToolKind) : option StrPath :=
  match kinds with
  | [] => None
  | k :: kinds' =>
      if enabled cfg k then
        match first_meeting k with
        | Some exe => Some exe
        | None => first_found kinds'
        end
      else first_found kinds'
  end.

End PureSearch.

(** ** cli.py *)

(** What the command writes, in order. *)
Inductive CliAction :=
| Stderr (line : string)              (* print(line, file=sys.stderr) *)
| Pause                               (* time.sleep(0.01) *)
| Stdout (line : string).             (* print(line) *)

(** [sys.exit(code)] after the actions. *)
Record CliOutcome := {
  actions : list CliAction;
  exit_code : Z
}.

Section Cli.

Context {VL : VersionLib}.
Variable env : Env.

(** The values of the options; the two minimum versions always have a value,
    their default when the option is not given. *)
Record CliArgs := {
  arg_mamba : bool;
  arg_micromamba : bool;
  arg_conda : bool;
  arg_conda_exe : bool;
  arg_no_install : bool;
  arg_min_conda_version : Version;
  arg_min_mamba_version : Version
}.

(** The keyword arguments of one call of [ensureconda]. *)
Definition cli_config (args : CliArgs) (no_install' : bool) : Config := {|
  mamba := arg_mamba args;
  micromamba := arg_micromamba args;
  conda := arg_conda args;
  conda_exe := arg_conda_exe args;
  no_install := no_install';
  min_conda_version := Some (arg_min_conda_version args);
  min_mamba_version := Some (arg_min_mamba_version args)
|}.

(** The truth value of an optional path. *)
Definition found (exe : option StrPath) : bool :=
  match exe with
  | None => false
  | Some exe => truthy exe
  end.

(** [str(exe)] *)
Definition str_of (exe : StrPath) : string :=
  match exe with
  | AsStr s => s
  | AsPath p => path_str (path_sep env) p
  end.

(** The branch [if exe:] of the command. *)
Definition success (exe : StrPath) : CliOutcome :=
  {| actions := [Stderr "Found compatible executable"; Pause;
                 Stdout (str_of exe)];
     exit_code := 0 |}.

(** Its [else] branch. *)
Definition failure : CliOutcome :=
  {| actions := [Stderr "Could not find compatible executable"];
     exit_code := 1 |}.

Definition ensureconda_cli (args : CliArgs) : M CliOutcome :=
  exe <- ensureconda env (cli_config args true) ;;
  exe <- (if negb (found exe) && negb (arg_no_install args) then
            ensureconda env (cli_config args false)
          else ret exe) ;;
  if found exe then
    match exe with
    | Some path => ret (success path)
    | None => ret failure
    end
  else ret failure.

End Cli.

Arguments CliArgs {VL}.

Module ExampleCli.

(** The options of a call without arguments. *)
Definition defaults : CliArgs (VL := Release.lib) :=
  @Build_CliArgs Release.lib true true true true false
    [4; 8; 2]%N [0; 7; 3]%N.

End ExampleCli.

(** ** Vocabulary of further statements *)

(** An event that is the run of an executable. *)
Definition is_run (ev : Event) : Prop :=
  match op_of ev with Run _ => True | _ => False end.

(** How a returned path came to be returned by the step of kind [k]: the
    kind is enabled, the path is truthy, the last thing that happened is a
    check of the path against the constraint of the kind that was true, and
    the path is a candidate of the kind or what its installer returned. *)
Definition checked {VL : VersionLib} (env : Env) (cfg : Config)
    (k : ToolKind) (exe : StrPath) (w' : World) : Prop :=
  enabled cfg k = true
  /\ truthy exe = true
  /\ (exists w0, satisfies env cfg k exe w0 = (Ok true, w'))
  /\ ((exists w1, In exe (executables env k w1))
      \/ exists install p w1 w2,
          installer env k = Some install /\ no_install cfg = false
          /\ install w1 = (Ok (Some p), w2) /\ exe = AsPath p).

(** What the outcome [out] of the command at the trace [w'] says about the
    searches it made from the trace [w]. *)
Definition explained {VL : VersionLib} (env : Env) (args : CliArgs)
    (w : World) (out : CliOutcome) (w' : World) : Prop :=
  (exists exe,
      out = success env exe
      /\ (ensureconda env (cli_config args true) w = (Ok (Some exe), w')
          \/ (arg_no_install args = false
              /\ exists w1,
                  ensureconda env (cli_config args true) w = (Ok None, w1)
                  /\ ensureconda env (cli_config args false) w1
                     = (Ok (Some exe), w')))
      /\ exists no_install' k,
          checked env (cli_config args no_install') k exe w')
  \/ (out = failure
      /\ exists w1,
          ensureconda env (cli_config args true) w = (Ok None, w1)
          /\ (if arg_no_install args then w' = w1
              else ensureconda env (cli_config args false) w1
                   = (Ok None, w'))).

(** The seconds an event sleeps. *)
Definition seconds (ev : Event) : R :=
  match sleep_seconds ev with
  | Some s => s
  | None => 0
  end.

(** The seconds slept in a list of events. *)
Fixpoint total_sleep (evs : list Event) : R :=
  match evs with
  | [] => 0
  | ev :: evs' => seconds ev + total_sleep evs'
  end.

(** The number of sleeps in a list of events. *)
Definition sleeps (evs : list Event) : nat :=
  List.length
    (filter (fun ev => match ev with Did (Sleep _) => true | _ => false end)
       evs).

(** An event of the retrying fetch of [url]: a request of [url], or a sleep
    that took place. *)
Definition retry_event (url : string) (ev : Event) : Prop :=
  match ev with
  | Did (Get u) => u = url
  | Failed (Get u) _ => u = url
  | Did (Sleep _) => True
  | _ => False
  end.

(** A text of white space only. *)
Fixpoint blank (s : string) : bool :=
  match s with
  | EmptyString => true
  | String c s' => PyStr.isspace c && blank s'
  end.

(** What probing [exe] can come to: a version, the exception of a run of
    [exe], or [InvalidVersion] for a string the version parser rejects. *)
Definition probe_outcome {VL : VersionLib} (env : Env) (exe : StrPath)
    (r : Result Version) : Prop :=
  (exists v, r = Ok v)
  \/ (exists e w, check_output env w exe = Raise e /\ r = Raise e)
  \/ (exists s, parse_version s = None /\ r = Raise (InvalidVersion s)).

Module ExampleProbe.

(** Two conda executables: the first prints a conda line without version,
    the second is conda 23.5.0. *)
Definition garbled_first : Env :=
  Example.with_tools
    (fun k => match k with
              | Conda => [Example.conda_a; Example.conda_b]
              | _ => []
              end)
    (fun exe => match exe with
                | AsStr "/opt/a/bin/conda" => Ok "conda: command not found"
                | _ => Ok "conda 23.5.0"
                end).

(** A host whose micromamba prints nothing but an empty line. *)
Definition mute : Env :=
  Example.with_tools
    (fun k => match k with Micromamba => [Example.mamba_a] | _ => [] end)
    (fun _ => Ok Example.nl).

End ExampleProbe.

Module ExampleTie.

(** Two records for the host with the same version, build number and
    timestamp, which differ in the file to download only. *)
Definition first_listed : AnacondaPkg :=
  Example.record "1.2" 0 50 "linux-64" "x.conda".
Definition last_listed : AnacondaPkg :=
  Example.record "1.2" 0 50 "linux-64" "y.conda".

Definition listing : list AnacondaPkg :=
  [Example.older; first_listed; Example.foreign; last_listed].

End ExampleTie.

(** * Properties *)

(** ** The release versions form a version library *)

Module ReleaseLaws.

Import Release.

Lemma compare_refl a : compare a a = Eq.
Proof.
  induction a as [|x a IH]; simpl; [reflexivity|].
  now rewrite N.compare_refl.
Qed.

Lemma compare_eq a b : compare a b = Eq -> a = b.
Proof.
  revert b; induction a as [|x a IH]; intros [|y b]; simpl;
    try discriminate; [reflexivity|].
  destruct (N.compare_spec x y); try discriminate.
  intros E; f_equal; [assumption | now apply IH].
Qed.

Lemma compare_antisym a b : compare b a = CompOpp (compare a b).
Proof.
  revert b; induction a as [|x a IH]; intros [|y b]; simpl; try reflexivity.
  rewrite (N.compare_antisym x y).
  destruct (N.compare x y); simpl; auto.
Qed.

Lemma compare_trans a b c :
  compare a b = Lt -> compare b c = Lt -> compare a c = Lt.
Proof.
  revert b c; induction a as [|x a IH]; intros [|y b] [|z c]; simpl;
    try discriminate; try reflexivity.
  destruct (N.compare_spec x y) as [->|Hxy|Hxy]; try discriminate.
  - destruct (N.compare y z) eqn:E; try discriminate; eauto.
  - intros _.
    destruct (N.compare_spec y z) as [->|Hyz|Hyz]; try discriminate; intros _.
    + apply N.compare_lt_iff in Hxy. now rewrite Hxy.
    + assert (Hxz : (x < z)%N) by lia.
      apply N.compare_lt_iff in Hxz. now rewrite Hxz.
Qed.

Lemma compare_eq_l a b c : compare a b = Eq -> compare a c = compare b c.
Proof. intros E. apply compare_eq in E. now subst. Qed.

#[export] Instance laws : VersionLaws Release.lib.
Proof.
  constructor.
  - reflexivity.
  - exact compare_refl.
  - exact compare_antisym.
  - exact compare_trans.
  - exact compare_eq_l.
Qed.

End ReleaseLaws.

(** ** Running the monad *)

Lemma bind_ok {A B} (m : M A) (f : A -> M B) w a w' :
  m w = (Ok a, w') -> bind m f w = f a w'.
Proof. unfold bind. now intros ->. Qed.

Lemma bind_raise {A B} (m : M A) (f : A -> M B) w e w' :
  m w = (Raise e, w') -> bind m f w = (Raise e, w').
Proof. unfold bind. now intros ->. Qed.

Lemma ask_ok {A} o (answer : World -> Result A) w a :
  answer w = Ok a -> ask o answer w = (Ok a, w ++ [Did o]).
Proof. unfold ask. now intros ->. Qed.

Lemma ask_raise {A} o (answer : World -> Result A) w e :
  answer w = Raise e -> ask o answer w = (Raise e, w ++ [Failed o e]).
Proof. unfold ask. now intros ->. Qed.

Lemma find_none_iff {A} (f : A -> bool) l :
  find f l = None <-> (forall x, In x l -> f x = false).
Proof.
  split.
  - apply find_none.
  - induction l as [|x l IH]; simpl; intros H; [reflexivity|].
    rewrite (H x (or_introl eq_refl)). apply IH. intros y Hy. apply H. now right.
Qed.

Lemma find_first {A} (f : A -> bool) pre x post :
  (forall y, In y pre -> f y = false) -> f x = true ->
  find f (pre ++ x :: post) = Some x.
Proof.
  induction pre as [|y pre IH]; simpl; intros Hpre Hx.
  - now rewrite Hx.
  - rewrite (Hpre y (or_introl eq_refl)). apply IH; auto.
Qed.

(** ** Version probing *)

Section Probing.

Context {VL : VersionLib}.
Variable env : Env.

Lemma determine_micromamba_version_first_line exe w out line rest token :
  check_output env w exe = Ok out ->
  PyStr.splitlines (PyStr.strip out) = line :: rest ->
  PyStr.last_item (PyStr.split line) = Some token ->
  determine_micromamba_version env exe w
  = Version_of token (w ++ [Did (Run exe)]).
Proof.
  intros Hout Hlines Htok. unfold determine_micromamba_version.
  rewrite (bind_ok _ _ w out (w ++ [Did (Run exe)]))
    by (now apply ask_ok).
  rewrite Hlines. unfold version_of_line. now rewrite Htok.
Qed.

Lemma determine_mamba_version_prefixed exe w out pre line post token :
  check_output env w exe = Ok out ->
  PyStr.splitlines (PyStr.strip out) = pre ++ line :: post ->
  (forall l, In l pre -> PyStr.startswith l "mamba" = false) ->
  PyStr.startswith line "mamba" = true ->
  PyStr.last_item (PyStr.split line) = Some token ->
  determine_mamba_version env exe w = Version_of token (w ++ [Did (Run exe)]).
Proof.
  intros Hout Hlines Hpre Hline Htok. unfold determine_mamba_version.
  rewrite (bind_ok _ _ w out (w ++ [Did (Run exe)]))
    by (now apply ask_ok).
  rewrite Hlines, (find_first _ pre line post Hpre Hline).
  unfold version_of_line. now rewrite Htok.
Qed.

Lemma determine_mamba_version_fallback exe w out :
  check_output env w exe = Ok out ->
  (forall l, In l (PyStr.splitlines (PyStr.strip out)) ->
             PyStr.startswith l "mamba" = false) ->
  determine_mamba_version env exe w
  = determine_micromamba_version env exe (w ++ [Did (Run exe)]).
Proof.
  intros Hout Hnone. unfold determine_mamba_version.
  rewrite (bind_ok _ _ w out (w ++ [Did (Run exe)]))
    by (now apply ask_ok).
  apply find_none_iff in Hnone. now rewrite Hnone.
Qed.

Lemma determine_conda_version_sentinel exe w out :
  check_output env w exe = Ok out ->
  (forall l, In l (PyStr.splitlines (PyStr.strip out)) ->
             PyStr.startswith l "conda" = false) ->
  determine_conda_version env exe w
  = Version_of "0.0.0" (w ++ [Did (Run exe)]).
Proof.
  intros Hout Hnone. unfold determine_conda_version.
  rewrite (bind_ok _ _ w out (w ++ [Did (Run exe)]))
    by (now apply ask_ok).
  apply find_none_iff in Hnone. now rewrite Hnone.
Qed.

End Probing.

(** C7: [determine_mamba_version] runs the executable, takes the first line
    of its stripped output that starts with "mamba" and parses the last
    whitespace-delimited token of that line; when no line starts with
    "mamba" it falls back to [determine_micromamba_version], which runs the
    executable again and parses the last token of the first line.  The output
    of mamba 1 ("mamba 1.4.7", "conda 23.5.0") gives 1.4.7 and the output
    "2.0.8" gives 2.0.8. *)
Theorem mamba_version_parsing :
  (forall (VL : VersionLib) (env : Env) (exe : StrPath) (w : World)
          (out : string),
      check_output env w exe = Ok out ->
      let w1 := w ++ [Did (Run exe)] in
      let lines := PyStr.splitlines (PyStr.strip out) in
      (forall pre line post token,
          lines = pre ++ line :: post ->
          (forall l, In l pre -> PyStr.startswith l "mamba" = false) ->
          PyStr.startswith line "mamba" = true ->
          PyStr.last_item (PyStr.split line) = Some token ->
          determine_mamba_version env exe w = Version_of token w1)
      /\ ((forall l, In l lines -> PyStr.startswith l "mamba" = false) ->
          determine_mamba_version env exe w
          = determine_micromamba_version env exe w1
          /\ forall out2 line rest token,
              check_output env w1 exe = Ok out2 ->
              PyStr.splitlines (PyStr.strip out2) = line :: rest ->
              PyStr.last_item (PyStr.split line) = Some token ->
              determine_mamba_version env exe w
              = Version_of token (w1 ++ [Did (Run exe)])))
  /\ determine_mamba_version (VL := Release.lib)
       (Example.mamba_host Example.mamba_v1_output) Example.mamba_a []
     = (Ok [1; 4; 7]%N, [Did (Run Example.mamba_a)])
  /\ determine_mamba_version (VL := Release.lib)
       (Example.mamba_host Example.mamba_v2_output) Example.mamba_a []
     = (Ok [2; 0; 8]%N, [Did (Run Example.mamba_a); Did (Run Example.mamba_a)]).
Proof.
  split; [|split; reflexivity].
  intros VL env exe w out Hout w1 lines. split.
  - intros pre line post token Hl Hpre Hline Htok.
    now apply (determine_mamba_version_prefixed env exe w out pre line post).
  - intros Hnone.
    pose proof (determine_mamba_version_fallback env exe w out Hout Hnone) as E.
    split; [exact E|].
    intros out2 line rest token Hout2 Hlines Htok. rewrite E.
    now apply (determine_micromamba_version_first_line env exe w1 out2 line rest).
Qed.

Lemma mamba_version_parsing_witness :
  let v1 := Example.mamba_host Example.mamba_v1_output in
  let v2 := Example.mamba_host Example.mamba_v2_output in
  determine_mamba_version (VL := Release.lib) v1 Example.mamba_a []
  = Version_of "1.4.7" [Did (Run Example.mamba_a)]
  /\ determine_mamba_version (VL := Release.lib) v2 Example.mamba_a []
     = Version_of "2.0.8"
         [Did (Run Example.mamba_a); Did (Run Example.mamba_a)].
Proof.
  intros v1 v2. split.
  - apply (proj1 (proj1 mamba_version_parsing Release.lib v1
                    Example.mamba_a [] Example.mamba_v1_output eq_refl)
             [] "mamba 1.4.7" ["conda 23.5.0"] "1.4.7");
      [reflexivity | intros l [] | reflexivity | reflexivity].
  - destruct (proj2 (proj1 mamba_version_parsing Release.lib v2
                       Example.mamba_a [] Example.mamba_v2_output eq_refl))
      as [_ H].
    + intros l [<-|[]]. reflexivity.
    + apply (H Example.mamba_v2_output "2.0.8" [] "2.0.8");
        reflexivity.
Defined.

(** ** Skipping and aborting in the candidate loops *)

Section Candidates.

Context {VL : VersionLib}.
Variable env : Env.

Lemma version_constraint_met_probe exe m version_fn w v w' :
  version_fn exe w = (Ok v, w') ->
  version_constraint_met exe (Some m) version_fn w = (Ok (version_ge v m), w').
Proof.
  intros H. unfold version_constraint_met.
  now rewrite (bind_ok _ _ w v w' H).
Qed.

Lemma version_constraint_met_raise exe m version_fn w e w' :
  version_fn exe w = (Raise e, w') ->
  version_constraint_met exe (Some m) version_fn w = (Raise e, w').
Proof.
  intros H. unfold version_constraint_met.
  now rewrite (bind_raise _ _ w e w' H).
Qed.

Lemma for_candidates_skip met exe rest w w' :
  truthy exe = true ->
  met exe w = (Ok false, w') ->
  for_candidates met (exe :: rest) w = for_candidates met rest w'.
Proof.
  intros Ht H. simpl. rewrite Ht.
  now rewrite (bind_ok _ _ w false w' H).
Qed.

Lemma for_candidates_found met exe rest w w' :
  truthy exe = true ->
  met exe w = (Ok true, w') ->
  for_candidates met (exe :: rest) w = (Ok (Some exe), w').
Proof.
  intros Ht H. simpl. rewrite Ht.
  now rewrite (bind_ok _ _ w true w' H).
Qed.

Lemma for_candidates_raise met exe rest w e w' :
  truthy exe = true ->
  met exe w = (Raise e, w') ->
  for_candidates met (exe :: rest) w = (Raise e, w').
Proof.
  intros Ht H. simpl. rewrite Ht.
  now rewrite (bind_raise _ _ w e w' H).
Qed.

Lemma prober_raise k (cfg : Config) exe w e :
  check_output env w exe = Raise e ->
  prober env k exe w = (Raise e, w ++ [Failed (Run exe) e]).
Proof.
  intros H.
  assert (E : subprocess_check_output env exe w
              = (Raise e, w ++ [Failed (Run exe) e]))
    by (now apply ask_raise).
  destruct k; simpl;
    [unfold determine_mamba_version | unfold determine_micromamba_version
    | unfold determine_conda_version | unfold determine_conda_version];
    now rewrite (bind_raise _ _ w e _ E).
Qed.

End Candidates.

(** C8: when the executable runs but no line of its output starts with
    "conda", [determine_conda_version] returns the version 0.0.0 and raises
    nothing; against a minimum above 0.0.0 the check is false, and the loop
    over the candidates goes on with the candidates that follow. *)
Theorem conda_sentinel_skips_candidate :
  forall (VL : VersionLib) (HL : VersionLaws VL) (env : Env)
         (exe : StrPath) (rest : list StrPath) (w : World) (out : string)
         (m : Version),
    truthy exe = true ->
    check_output env w exe = Ok out ->
    (forall l, In l (PyStr.splitlines (PyStr.strip out)) ->
               PyStr.startswith l "conda" = false) ->
    version_lt vzero m = true ->
    let met e :=
      version_constraint_met e (Some m) (determine_conda_version env) in
    let w1 := w ++ [Did (Run exe)] in
    determine_conda_version env exe w = (Ok vzero, w1)
    /\ met exe w = (Ok false, w1)
    /\ for_candidates met (exe :: rest) w = for_candidates met rest w1.
Proof.
  intros VL HL env exe rest w out m Ht Hout Hnone Hm met w1.
  assert (E : determine_conda_version env exe w = (Ok vzero, w1)).
  { rewrite (determine_conda_version_sentinel env exe w out Hout Hnone).
    unfold Version_of. now rewrite parse_zero. }
  assert (F : met exe w = (Ok false, w1)).
  { unfold met. rewrite (version_constraint_met_probe _ _ _ _ _ _ E).
    unfold version_lt in Hm. unfold version_ge.
    now destruct (vcompare vzero m). }
  repeat split; try assumption.
  now apply for_candidates_skip.
Qed.

Lemma conda_sentinel_skips_candidate_witness :
  let met e :=
    version_constraint_met (VL := Release.lib) e (Some [4; 8; 2]%N)
      (determine_conda_version Example.silent_first) in
  for_candidates met [Example.conda_a; Example.conda_b] []
  = (Ok (Some Example.conda_b),
     [Did (Run Example.conda_a); Did (Run Example.conda_b)]).
Proof.
  intros met.
  refine (eq_trans (proj2 (proj2 (conda_sentinel_skips_candidate
                           Release.lib ReleaseLaws.laws Example.silent_first
                           Example.conda_a [Example.conda_b] []
                           "usage: conda" [4; 8; 2]%N
                           eq_refl eq_refl
                           (fun l H => match H with
                                       | or_introl E =>
                                           match E with eq_refl => eq_refl end
                                       | or_intror F => match F with end
                                       end)
                           eq_refl))) _).
  reflexivity.
Defined.

(** ** What a computation adds to the trace *)

Lemma events_since_app (w evs : World) : events_since w (w ++ evs) = evs.
Proof.
  unfold events_since. induction w as [|x w IH]; simpl; [reflexivity|exact IH].
Qed.

Section Emits.

Variable P : Event -> Prop.

Lemma emits_ret {A} (a : A) : emits P (ret a).
Proof. intros w. exists []. simpl. now rewrite app_nil_r. Qed.

Lemma emits_raise {A} e : emits P (@raise A e).
Proof. intros w. exists []. simpl. now rewrite app_nil_r. Qed.

Lemma emits_lift {A} (r : Result A) : emits P (lift r).
Proof. intros w. exists []. simpl. now rewrite app_nil_r. Qed.

Lemma emits_bind {A B} (m : M A) (f : A -> M B) :
  emits P m -> (forall a, emits P (f a)) -> emits P (bind m f).
Proof.
  intros Hm Hf w. destruct (Hm w) as (evs1 & E1 & F1).
  unfold bind. destruct (m w) as [[a|e] w1]; simpl in *; subst w1.
  - destruct (Hf a (w ++ evs1)) as (evs2 & E2 & F2).
    exists (evs1 ++ evs2). rewrite E2, app_assoc. split; [reflexivity|].
    now apply Forall_app.
  - now exists evs1.
Qed.

Lemma emits_try_finally {A} (body : M A) (fin : M unit) :
  emits P body -> emits P fin -> emits P (try_finally body fin).
Proof.
  intros Hb Hf w. destruct (Hb w) as (evs1 & E1 & F1).
  unfold try_finally. destruct (body w) as [r w1]; simpl in *; subst w1.
  destruct (Hf (w ++ evs1)) as (evs2 & E2 & F2).
  exists (evs1 ++ evs2).
  destruct (fin (w ++ evs1)) as [[u|e] w2]; simpl in *; subst w2;
    (split; [now rewrite app_assoc | now apply Forall_app]).
Qed.

Lemma emits_perform env o :
  P (Did o) -> (forall e, P (Failed o e)) -> emits P (perform env o).
Proof.
  intros Hd Hf w. unfold perform.
  destruct (fault env w o) as [e|]; simpl.
  - exists [Failed o e]. split; [reflexivity|]. repeat constructor. apply Hf.
  - exists [Did o]. split; [reflexivity|]. now repeat constructor.
Qed.

Lemma emits_ask {A} o (answer : World -> Result A) :
  P (Did o) -> (forall e, P (Failed o e)) -> emits P (ask o answer).
Proof.
  intros Hd Hf w. unfold ask.
  destruct (answer w) as [a|e]; simpl.
  - exists [Did o]. split; [reflexivity|]. now repeat constructor.
  - exists [Failed o e]. split; [reflexivity|]. repeat constructor. apply Hf.
Qed.

Lemma emits_time_sleep i : P (Did (Sleep i)) -> emits P (time_sleep i).
Proof.
  intros H w. exists [Did (Sleep i)]. split; [reflexivity|].
  now repeat constructor.
Qed.

Lemma emits_uuid4 env : emits P (uuid4 env).
Proof. intros w. exists []. simpl. now rewrite app_nil_r. Qed.

Lemma emits_resolve env k : emits P (resolve env k).
Proof. intros w. exists []. simpl. now rewrite app_nil_r. Qed.

End Emits.

Lemma emits_weaken {A} (P Q : Event -> Prop) (m : M A) :
  (forall ev, P ev -> Q ev) -> emits P m -> emits Q m.
Proof.
  intros HPQ H w. destruct (H w) as (evs & E & F).
  exists evs. split; [assumption|]. eapply Forall_impl; eauto.
Qed.

(** Going through a computation: [op] proves the property of the events of
    one operation, [known] applies what is known of the parts. *)
Ltac emit_by op known :=
  repeat first
    [ known
    | apply emits_ret | apply emits_raise | apply emits_lift
    | apply emits_uuid4 | apply emits_resolve
    | apply emits_time_sleep; op
    | apply emits_perform; [op | intro; op]
    | apply emits_ask; [op | intro; op]
    | apply emits_try_finally
    | apply emits_bind; [|intro] ].

(** What the writer of executables emits, when the property holds of every
    operation that is not the run of an executable. *)
Section WriterEmits.

Variable env : Env.
Variable P : Event -> Prop.
Hypothesis P_op : forall ev, not_a_run ev -> P ev.

Lemma emits_write_executable fo dest :
  emits P (write_executable_from_file_object env fo dest).
Proof.
  unfold write_executable_from_file_object, new_executable, with_FileLock,
    with_open_wb.
  emit_by ltac:(apply P_op; exact I) fail.
  unfold fo_read. destruct fo; emit_by ltac:(apply P_op; exact I) fail.
Qed.

End WriterEmits.

(** What the installers emit, when the property holds of the events of the
    network and of what the writer of executables emits. *)
Section InstallerEmits.

Variable env : Env.
Variable P : Event -> Prop.
Hypothesis P_net : forall ev, net_event ev -> P ev.
Hypothesis P_write : forall fo dest,
    emits P (write_executable_from_file_object env fo dest).

Ltac emit_with known := emit_by ltac:(apply P_net; exact I) known.
Ltac emit := emit_with ltac:(apply P_write).

Lemma emits_retry_loop url range : emits P (retry_loop env url range).
Proof.
  induction range as [|i range IH]; simpl; emit.
  destruct (is_http_error _); emit.
  destruct (_ =? _)%Z; emit. exact IH.
Qed.

Lemma emits_request_url_with_retry url :
  emits P (request_url_with_retry env url).
Proof. apply emits_retry_loop. Qed.

Lemma emits_install_micromamba : emits P (install_micromamba env).
Proof.
  unfold install_micromamba, extract_files_from_tar_bz2, extractfile.
  emit_with ltac:(first [apply P_write | apply emits_request_url_with_retry]).
  - destruct (find _ _) as [[n [d|]]|]; emit.
  - destruct a1; emit.
Qed.

Lemma emits_stream_loop members dest :
  emits P (stream_loop env members dest).
Proof.
  induction members as [|[n m] members IH]; simpl; emit.
  destruct (String.eqb _ _); [apply P_write | exact IH].
Qed.

Lemma emits_install_conda_exe {VL : VersionLib} :
  emits P (install_conda_exe env).
Proof.
  unfold install_conda_exe, sort_candidates, stream_conda_executable.
  emit_with ltac:(first [apply P_write | apply emits_request_url_with_retry]).
  - generalize (filter
      (fun info => String.eqb (subdir (attrs info)) (platform_subdir env)) a0).
    intros l. induction l as [|x l IH]; simpl; emit; [|exact IH].
    unfold sort_key, Version_of. emit. destruct (parse_version _); emit.
  - destruct (_ =? _)%nat; emit.
    destruct (PyStr.last_item _);
      emit_with ltac:(first [apply P_write | apply emits_stream_loop]).
Qed.

End InstallerEmits.

Lemma net_event_not_a_run ev : net_event ev -> not_a_run ev.
Proof. unfold net_event, not_a_run. now destruct (op_of ev). Qed.

(** ** A failed probe ends the resolution *)

Section ProbeFailure.

Lemma aborts_of_emits {A} (m : M A) :
  emits not_a_run m -> probe_failure_aborts m.
Proof.
  intros H w. destruct (H w) as (evs & E & F).
  exists evs. split; [assumption|].
  intros exe e Hin. rewrite Forall_forall in F. destruct (F _ Hin).
Qed.

Lemma aborts_ret {A} (a : A) : probe_failure_aborts (ret a).
Proof. apply aborts_of_emits, emits_ret. Qed.

Lemma aborts_bind {A B} (m : M A) (f : A -> M B) :
  probe_failure_aborts m -> (forall a, probe_failure_aborts (f a)) ->
  probe_failure_aborts (bind m f).
Proof.
  intros Hm Hf w. destruct (Hm w) as (evs1 & E1 & F1).
  unfold bind. destruct (m w) as [[a|e] w1]; simpl in *; subst w1.
  - destruct (Hf a (w ++ evs1)) as (evs2 & E2 & F2).
    exists (evs1 ++ evs2). rewrite E2, app_assoc. split; [reflexivity|].
    intros exe e Hin. apply in_app_or in Hin. destruct Hin as [Hin|Hin].
    + destruct (F1 _ _ Hin) as [Habs _]. discriminate.
    + destruct (F2 _ _ Hin) as (R & pre & ->).
      split; [assumption|]. exists (evs1 ++ pre). now rewrite app_assoc.
  - exists evs1. split; [reflexivity|].
    intros exe e' Hin. destruct (F1 _ _ Hin) as [R Hpre].
    injection R as ->. now split.
Qed.

Context {VL : VersionLib}.
Variable env : Env.

Lemma aborts_check_output exe :
  probe_failure_aborts (subprocess_check_output env exe).
Proof.
  intros w. unfold subprocess_check_output, ask.
  destruct (check_output env w exe) as [out|e]; simpl.
  - exists [Did (Run exe)]. split; [reflexivity|].
    intros exe' e' [Hin|[]]. discriminate.
  - exists [Failed (Run exe) e]. split; [reflexivity|].
    intros exe' e' [Hin|[]]. injection Hin as <- <-.
    split; [reflexivity|]. now exists [].
Qed.

Lemma aborts_Version_of s : probe_failure_aborts (Version_of s).
Proof.
  apply aborts_of_emits. unfold Version_of.
  destruct (parse_version s); [apply emits_ret | apply emits_raise].
Qed.

Lemma aborts_version_of_line line : probe_failure_aborts (version_of_line line).
Proof.
  unfold version_of_line. destruct (PyStr.last_item _).
  - apply aborts_Version_of.
  - apply aborts_of_emits, emits_raise.
Qed.

Lemma aborts_determine_micromamba_version exe :
  probe_failure_aborts (determine_micromamba_version env exe).
Proof.
  apply aborts_bind; [apply aborts_check_output|]. intros out.
  cbv beta zeta.
  destruct (PyStr.splitlines _);
    [apply aborts_Version_of | apply aborts_version_of_line].
Qed.

Lemma aborts_determine_mamba_version exe :
  probe_failure_aborts (determine_mamba_version env exe).
Proof.
  apply aborts_bind; [apply aborts_check_output|]. intros out.
  cbv beta zeta.
  destruct (find _ _);
    [apply aborts_version_of_line | apply aborts_determine_micromamba_version].
Qed.

Lemma aborts_determine_conda_version exe :
  probe_failure_aborts (determine_conda_version env exe).
Proof.
  apply aborts_bind; [apply aborts_check_output|]. intros out.
  cbv beta zeta.
  destruct (find _ _); [apply aborts_version_of_line | apply aborts_Version_of].
Qed.

Lemma aborts_version_constraint_met exe min_version version_fn :
  probe_failure_aborts (version_fn exe) ->
  probe_failure_aborts (version_constraint_met exe min_version version_fn).
Proof.
  intros H. destruct min_version as [m|]; simpl; [|apply aborts_ret].
  apply aborts_bind; [assumption | intros v; apply aborts_ret].
Qed.

Lemma aborts_for_candidates met exes :
  (forall exe, probe_failure_aborts (met exe)) ->
  probe_failure_aborts (for_candidates met exes).
Proof.
  intros H. induction exes as [|exe exes IH]; simpl; [apply aborts_ret|].
  destruct (truthy exe); [|exact IH].
  apply aborts_bind; [apply H|]. intros [|]; [apply aborts_ret | exact IH].
Qed.

Lemma aborts_check_installed met maybe_exe :
  (forall exe, probe_failure_aborts (met exe)) ->
  probe_failure_aborts (check_installed met maybe_exe).
Proof.
  intros H. destruct maybe_exe as [p|]; simpl; [|apply aborts_ret].
  apply aborts_bind; [apply H|]. intros [|]; apply aborts_ret.
Qed.

Lemma aborts_or_else r next :
  probe_failure_aborts next -> probe_failure_aborts (or_else r next).
Proof. intros H. destruct r; simpl; [apply aborts_ret | exact H]. Qed.

Lemma aborts_resolve k : probe_failure_aborts (resolve env k).
Proof. apply aborts_of_emits, emits_resolve. Qed.

Lemma aborts_ensureconda cfg : probe_failure_aborts (ensureconda env cfg).
Proof.
  unfold ensureconda.
  repeat first
    [ apply aborts_ret | apply aborts_resolve
    | apply aborts_or_else
    | apply aborts_for_candidates; intro
    | apply aborts_check_installed; intro
    | apply aborts_version_constraint_met
    | apply aborts_determine_mamba_version
    | apply aborts_determine_micromamba_version
    | apply aborts_determine_conda_version
    | apply aborts_of_emits;
      first [ apply emits_install_micromamba
            | apply emits_install_conda_exe ];
      [ apply net_event_not_a_run
      | intros; apply emits_write_executable; auto ]
    | match goal with
      | |- probe_failure_aborts (if ?b then _ else _) => destruct b
      end
    | apply aborts_bind; [|intro] ].
Qed.

End ProbeFailure.

(** C2, as the program has it: a failure of the subprocess that probes
    a candidate is caught nowhere.  The loop over the candidates raises the
    exception of the subprocess without looking at the candidates that
    follow, and whenever a run of [ensureconda] contains a failed probe, that
    probe is the last thing that happened and its exception is the outcome
    of [ensureconda]. *)
Theorem probe_failure_propagates :
  forall (VL : VersionLib) (env : Env) (cfg : Config),
    (forall (k : ToolKind) (m : Version) (exe : StrPath)
            (rest : list StrPath) (w : World) (e : Exn),
        constraint cfg k = Some m ->
        truthy exe = true ->
        check_output env w exe = Raise e ->
        for_candidates (satisfies env cfg k) (exe :: rest) w
        = (Raise e, w ++ [Failed (Run exe) e]))
    /\ (forall (w : World) (exe : StrPath) (e : Exn),
           In (Failed (Run exe) e)
              (events_since w (snd (ensureconda env cfg w))) ->
           fst (ensureconda env cfg w) = Raise e
           /\ exists pre,
               snd (ensureconda env cfg w)
               = w ++ pre ++ [Failed (Run exe) e]).
Proof.
  intros VL env cfg. split.
  - intros k m exe rest w e Hc Ht Hrun.
    apply for_candidates_raise; [assumption|].
    unfold satisfies. rewrite Hc.
    apply version_constraint_met_raise. now apply prober_raise.
  - intros w exe e Hin.
    destruct (aborts_ensureconda env cfg w) as (evs & E & F).
    rewrite E, events_since_app in Hin.
    destruct (F _ _ Hin) as (R & pre & ->).
    split; [assumption|]. exists pre. now rewrite E.
Qed.

Lemma probe_failure_propagates_witness :
  let cfg := Example.config false (Some [4; 8; 2]%N) (Some [0; 7; 3]%N) in
  for_candidates (satisfies (VL := Release.lib) Example.broken_first cfg Mamba)
    [Example.mamba_a; Example.mamba_b] []
  = (Raise (CalledProcessError 1),
     [Failed (Run Example.mamba_a) (CalledProcessError 1)])
  /\ fst (ensureconda (VL := Release.lib) Example.broken_first cfg [])
     = Raise (CalledProcessError 1).
Proof.
  intros cfg. split.
  - exact (proj1 (probe_failure_propagates Release.lib Example.broken_first cfg)
             Mamba [0; 7; 3]%N Example.mamba_a [Example.mamba_b] []
             (CalledProcessError 1) eq_refl eq_refl eq_refl).
  - exact (proj1 (proj2 (probe_failure_propagates Release.lib
                           Example.broken_first cfg)
                    [] Example.mamba_a (CalledProcessError 1)
                    (or_introl eq_refl))).
Defined.

(** C2 as stated fails: the first mamba candidate exits with status 1, the
    second one is mamba 1.4.7 and satisfies the minimum 0.7.3, yet
    [ensureconda] raises the error of the first and never runs the second. *)
Lemma probe_failure_not_confined :
  let cfg := Example.config false (Some [4; 8; 2]%N) (Some [0; 7; 3]%N) in
  ensureconda (VL := Release.lib) Example.broken_first cfg []
  = (Raise (CalledProcessError 1),
     [Failed (Run Example.mamba_a) (CalledProcessError 1)])
  /\ satisfies (VL := Release.lib) Example.broken_first cfg Mamba
       Example.mamba_b [Failed (Run Example.mamba_a) (CalledProcessError 1)]
     = (Ok true, [Failed (Run Example.mamba_a) (CalledProcessError 1);
                  Did (Run Example.mamba_b)])
  /\ fst (ensureconda (VL := Release.lib) Example.broken_first cfg [])
     <> Ok (Some Example.mamba_b).
Proof.
  intros cfg. split; [reflexivity|]. split; [reflexivity|]. discriminate.
Qed.

(** ** The retrying fetch *)

Section Retry.

Variable env : Env.
Variable url : string.

Lemma retries_S i0 k :
  retries url i0 (S k) = Did (Get url) :: Did (Sleep i0) :: retries url (S i0) k.
Proof. reflexivity. Qed.

Lemma retries_last i0 k :
  retries url i0 (S k)
  = retries url i0 k ++ [Did (Get url); Did (Sleep (i0 + k))].
Proof.
  unfold retries. rewrite seq_S, flat_map_app. simpl. reflexivity.
Qed.

Lemma status_500_is_error resp :
  status_code resp = 500%Z -> is_http_error resp = true.
Proof. unfold is_http_error. now intros ->. Qed.

Lemma retry_loop_500 i range w resp :
  requests_get env w url = Ok resp ->
  status_code resp = 500%Z ->
  retry_loop env url (i :: range) w
  = retry_loop env url range (w ++ [Did (Get url); Did (Sleep i)]).
Proof.
  intros Hget H500. simpl.
  rewrite (bind_ok _ _ w resp (w ++ [Did (Get url)])) by (now apply ask_ok).
  rewrite (status_500_is_error _ H500), H500. simpl.
  unfold bind, time_sleep. now rewrite <- app_assoc.
Qed.

Lemma retry_loop_success i range w resp :
  requests_get env w url = Ok resp ->
  is_http_error resp = false ->
  retry_loop env url (i :: range) w = (Ok resp, w ++ [Did (Get url)]).
Proof.
  intros Hget Hok. simpl.
  rewrite (bind_ok _ _ w resp (w ++ [Did (Get url)])) by (now apply ask_ok).
  now rewrite Hok.
Qed.

Lemma retry_loop_permanent i range w resp :
  requests_get env w url = Ok resp ->
  is_http_error resp = true ->
  status_code resp <> 500%Z ->
  retry_loop env url (i :: range) w
  = (Raise (HTTPError (status_code resp)), w ++ [Did (Get url)]).
Proof.
  intros Hget Herr Hne. simpl.
  rewrite (bind_ok _ _ w resp (w ++ [Did (Get url)])) by (now apply ask_ok).
  rewrite Herr. apply Z.eqb_neq in Hne. now rewrite Hne.
Qed.

(** [k] transient failures consume [k] iterations. *)
Lemma retry_loop_retries k : forall i0 n w,
  (forall j, (j < k)%nat ->
     exists r, requests_get env (w ++ retries url i0 j) url = Ok r
               /\ status_code r = 500%Z) ->
  retry_loop env url (seq i0 (k + n)) w
  = retry_loop env url (seq (i0 + k) n) (w ++ retries url i0 k).
Proof.
  induction k as [|k IH]; intros i0 n w H.
  - simpl. now rewrite Nat.add_0_r, app_nil_r.
  - destruct (H 0%nat (Nat.lt_0_succ k)) as (r & Hr & H500).
    simpl in Hr. rewrite app_nil_r in Hr.
    change (seq i0 (S k + n)) with (i0 :: seq (S i0) (k + n)).
    rewrite (retry_loop_500 _ _ _ _ Hr H500), IH.
    + rewrite retries_S, <- app_assoc, Nat.add_succ_r. reflexivity.
    + intros j Hj. destruct (H (S j)) as (r' & Hr' & H500'); [lia|].
      exists r'. split; [|assumption].
      rewrite retries_S in Hr'. now rewrite <- app_assoc.
Qed.

Lemma attempts_app evs1 evs2 :
  attempts (evs1 ++ evs2) = (attempts evs1 + attempts evs2)%nat.
Proof. unfold attempts. now rewrite filter_app, length_app. Qed.

Lemma retry_loop_attempts range : forall w,
  exists evs, snd (retry_loop env url range w) = w ++ evs
              /\ (attempts evs <= List.length range)%nat.
Proof.
  induction range as [|i range IH]; intros w; simpl.
  - exists []. rewrite app_nil_r. split; [reflexivity | apply Nat.le_refl].
  - unfold bind, ask. destruct (requests_get env w url) as [resp|e].
    + destruct (is_http_error resp);
        [destruct (status_code resp =? 500)%Z|].
      * unfold time_sleep.
        destruct (IH ((w ++ [Did (Get url)]) ++ [Did (Sleep i)]))
          as (evs & E & L).
        exists ([Did (Get url); Did (Sleep i)] ++ evs).
        rewrite E, <- !app_assoc. split; [reflexivity|].
        rewrite attempts_app. unfold attempts at 1. simpl. lia.
      * exists [Did (Get url)]. split; [reflexivity|].
        unfold attempts. simpl. lia.
      * exists [Did (Get url)]. split; [reflexivity|].
        unfold attempts. simpl. lia.
    + exists [Failed (Get url) e]. split; [reflexivity|].
      unfold attempts. simpl. lia.
Qed.

Lemma emits_sleeps_within n : forall i0,
  emits (sleeps_within i0 (i0 + n)) (retry_loop env url (seq i0 n)).
Proof.
  induction n as [|n IH]; intros i0; simpl.
  - apply emits_raise.
  - apply emits_bind.
    + apply emits_ask; [|intros e]; intros o i <-; discriminate.
    + intros resp. destruct (is_http_error resp); [|apply emits_ret].
      destruct (status_code resp =? 500)%Z; [|apply emits_raise].
      apply emits_bind.
      * apply emits_time_sleep. intros o i <- [= <-]. lia.
      * intros _. apply (emits_weaken (sleeps_within (S i0) (S i0 + n))).
        -- intros ev H o i Ho Hs. specialize (H o i Ho Hs). lia.
        -- apply IH.
Qed.

End Retry.

(** C5: [request_url_with_retry] makes at most 10 requests.  After [k]
    answers with status 500, each followed by a sleep: a tenth such answer
    ends in [TimeoutError]; before that, an answer that is no HTTP error is
    returned at once and an answer with another error status raises
    [HTTPError] at once.  Against a server that answers 500, 500, 200 the
    third answer is returned after exactly 3 requests. *)
Theorem retry_policy :
  (forall (env : Env) (url : string) (w : World),
      (attempts (events_since w (snd (request_url_with_retry env url w)))
       <= 10)%nat
      /\ forall k : nat,
          (forall j, (j < k)%nat ->
             exists r, requests_get env (w ++ retries url 0 j) url = Ok r
                       /\ status_code r = 500%Z) ->
          let wk := w ++ retries url 0 k in
          (k = 10%nat ->
           request_url_with_retry env url w
           = (Raise (TimeoutError
                       ("Could not retrieve " ++ url ++ " in 10 tries")), wk))
          /\ ((k < 10)%nat ->
              forall resp, requests_get env wk url = Ok resp ->
                (is_http_error resp = false ->
                 request_url_with_retry env url w
                 = (Ok resp, wk ++ [Did (Get url)]))
                /\ (is_http_error resp = true ->
                    status_code resp <> 500%Z ->
                    request_url_with_retry env url w
                    = (Raise (HTTPError (status_code resp)),
                       wk ++ [Did (Get url)]))))
  /\ (let env := Example.with_server
                   [Example.response 500 []; Example.response 500 [];
                    Example.response 200 Example.listing] [] in
      request_url_with_retry env "https://host/files" []
      = (Ok (Example.response 200 Example.listing),
         [Did (Get "https://host/files"); Did (Sleep 0);
          Did (Get "https://host/files"); Did (Sleep 1);
          Did (Get "https://host/files")])
      /\ attempts (snd (request_url_with_retry env "https://host/files" []))
         = 3%nat).
Proof.
  split; [|split; reflexivity].
  intros env url w. split.
  - destruct (retry_loop_attempts env url (seq 0 10) w) as (evs & E & L).
    unfold request_url_with_retry. rewrite E, events_since_app.
    now rewrite length_seq in L.
  - intros k H wk. split.
    + intros ->. exact (retry_loop_retries env url 10 0 0 w H).
    + intros Hk resp Hget. unfold request_url_with_retry. cbv zeta.
      replace 10%nat with (k + S (9 - k))%nat by lia.
      rewrite (retry_loop_retries env url k 0 (S (9 - k)) w H).
      change (seq (0 + k) (S (9 - k)))
        with ((0 + k)%nat :: seq (S (0 + k)) (9 - k)).
      split.
      * intros Hok. now apply retry_loop_success.
      * intros Herr Hne. now apply retry_loop_permanent.
Qed.

Lemma retry_policy_witness :
  let env := Example.with_server
               [Example.response 500 []; Example.response 404 []] [] in
  request_url_with_retry env "https://host/files" []
  = (Raise (HTTPError 404),
     [Did (Get "https://host/files"); Did (Sleep 0);
      Did (Get "https://host/files")]).
Proof.
  intros env.
  destruct (proj1 retry_policy env "https://host/files" []) as [_ H].
  destruct (H 1%nat) as [_ H1].
  - intros j Hj. exists (Example.response 500 []).
    destruct j as [|j]; [split; reflexivity | exfalso; lia].
  - destruct (H1 ltac:(lia) (Example.response 404 []) eq_refl) as [_ H2].
    apply H2; [reflexivity | discriminate].
Defined.

(** ** The duration of the sleeps *)

Section Backoff.

Local Open Scope R_scope.

Lemma py_max_Rmax a b : py_max a b = Rmax a b.
Proof.
  unfold py_max, Rmax.
  destruct (Rlt_dec a b), (Rle_dec a b); lra.
Qed.

Lemma e_power x : Rpower (exp 1) x = exp x.
Proof. unfold Rpower. rewrite ln_exp. f_equal. lra. Qed.

Lemma exp_9_bound : exp 9 <= 19683.
Proof.
  assert (E : exp 9 = exp 1 ^ 9).
  { replace 9 with (1 + (1 + (1 + (1 + (1 + (1 + (1 + (1 + 1)))))))) by lra.
    rewrite !exp_plus. simpl. ring. }
  rewrite E.
  replace 19683 with (3 ^ 9) by (simpl; lra).
  apply pow_incr. split; [left; apply exp_pos | apply exp_le_3].
Qed.

Lemma exp_9_4_bound : exp (9 / 4) < 15.
Proof.
  destruct (Rlt_dec (exp (9 / 4)) 15) as [H|H]; [exact H|exfalso].
  assert (L : 15 ^ 4 <= exp (9 / 4) ^ 4) by (apply pow_incr; lra).
  assert (E : exp (9 / 4) ^ 4 = exp 9).
  { simpl. rewrite Rmult_1_r, <- !exp_plus. f_equal. lra. }
  rewrite E in L. pose proof exp_9_bound. simpl in L. lra.
Qed.

Lemma exp_le_compat x y : x <= y -> exp x <= exp y.
Proof.
  intros [H| ->]; [left; now apply exp_increasing | right; reflexivity].
Qed.

Lemma retry_term_below_floor i : (i < 10)%nat -> exp (INR i / 4) < 15.
Proof.
  intros H. apply Rle_lt_trans with (exp (9 / 4)); [|apply exp_9_4_bound].
  apply exp_le_compat.
  assert (L : INR i <= INR 9) by (apply le_INR; lia).
  simpl in L. lra.
Qed.

Lemma retry_timeout_Rmax i : retry_timeout i = Rmax (exp (INR i / 4)) 15.
Proof. unfold retry_timeout. now rewrite py_max_Rmax, e_power. Qed.

End Backoff.

(** C9: in iteration [i] of the loop, [i] below 10, the sleep after an
    answer with status 500 lasts max(e^(i/4), 15) seconds, which is at least
    15 seconds (and is 15 seconds, e^(i/4) being smaller); every sleep of
    [request_url_with_retry] is the sleep of such an iteration. *)
Theorem retry_sleep_floor :
  (forall i : nat, (i < 10)%nat ->
      retry_timeout i = Rmax (exp (INR i / 4)) 15
      /\ (15 <= retry_timeout i)%R
      /\ retry_timeout i = 15%R)
  /\ (forall (env : Env) (url : string) (w : World) (ev : Event)
             (seconds : R),
         In ev (events_since w (snd (request_url_with_retry env url w))) ->
         sleep_seconds ev = Some seconds ->
         exists i : nat,
           (i < 10)%nat /\ ev = Did (Sleep i)
           /\ seconds = Rmax (exp (INR i / 4)) 15
           /\ (15 <= seconds)%R).
Proof.
  assert (G : forall i, retry_timeout i = Rmax (exp (INR i / 4)) 15
                        /\ (15 <= retry_timeout i)%R).
  { intros i. rewrite retry_timeout_Rmax. split; [reflexivity|].
    apply Rmax_r. }
  split.
  - intros i Hi. destruct (G i) as [E L]. repeat split; try assumption.
    rewrite E. apply Rmax_right. left. now apply retry_term_below_floor.
  - intros env url w ev seconds Hin Hs.
    destruct (emits_sleeps_within env url 10 0 w) as (evs & E & F).
    unfold request_url_with_retry in Hin.
    rewrite E, events_since_app in Hin.
    rewrite Forall_forall in F. specialize (F ev Hin).
    destruct ev as [[]|]; try discriminate. simpl in Hs.
    injection Hs as <-. exists attempt.
    destruct (F _ attempt eq_refl eq_refl) as [_ Hlt].
    destruct (G attempt) as [E' L]. repeat split; assumption.
Qed.

Lemma retry_sleep_floor_witness :
  retry_timeout 3 = 15%R
  /\ exists i : nat,
      (i < 10)%nat /\ Did (Sleep 1) = Did (Sleep i)
      /\ retry_timeout 1 = Rmax (exp (INR i / 4)) 15
      /\ (15 <= retry_timeout 1)%R.
Proof.
  split.
  - apply (proj1 retry_sleep_floor 3%nat). lia.
  - apply (proj2 retry_sleep_floor
             (Example.with_server
                [Example.response 500 []; Example.response 500 [];
                 Example.response 200 Example.listing] [])
             "https://host/files" [] (Did (Sleep 1)) (retry_timeout 1)).
    + right. right. right. left. reflexivity.
    + reflexivity.
Defined.

(** ** Ordering the candidates *)

Section Orders.

Lemma order_eq_r {T} (cmp : T -> T -> comparison) (O : Order cmp) a b c :
  cmp b c = Eq -> cmp a b = cmp a c.
Proof.
  intros E.
  assert (E' : cmp c b = Eq) by (now rewrite (order_antisym cmp O b c), E).
  rewrite (order_antisym cmp O b a), (order_antisym cmp O c a).
  f_equal. symmetry. now apply (order_eq_l cmp O).
Qed.

(** Not below is transitive. *)
Lemma order_not_lt_trans {T} (cmp : T -> T -> comparison) (O : Order cmp)
    a b c :
  cmp b a <> Lt -> cmp c b <> Lt -> cmp c a <> Lt.
Proof.
  intros Hba Hcb Hca.
  destruct (cmp b a) eqn:E; [| now apply Hba |].
  - apply Hcb. now rewrite (order_eq_r cmp O c b a E).
  - apply Hcb. apply (order_trans cmp O c a b Hca).
    now rewrite (order_antisym cmp O b a), E.
Qed.

Lemma Order_lex {A B} (cmpA : A -> A -> comparison)
    (cmpB : B -> B -> comparison) :
  Order cmpA -> Order cmpB -> Order (lex cmpA cmpB).
Proof.
  intros OA OB. constructor; unfold lex.
  - intros [a1 a2] [b1 b2]; simpl.
    rewrite (order_antisym cmpA OA a1 b1).
    destruct (cmpA a1 b1); simpl; auto. apply (order_antisym cmpB OB).
  - intros [a1 a2] [b1 b2] [c1 c2]; simpl.
    destruct (cmpA a1 b1) eqn:Eab; try discriminate;
      destruct (cmpA b1 c1) eqn:Ebc; try discriminate; intros H1 H2.
    + rewrite (order_eq_l cmpA OA a1 b1 c1 Eab), Ebc.
      now apply (order_trans cmpB OB a2 b2 c2).
    + now rewrite (order_eq_l cmpA OA a1 b1 c1 Eab), Ebc.
    + now rewrite <- (order_eq_r cmpA OA a1 b1 c1 Ebc), Eab.
    + now rewrite (order_trans cmpA OA a1 b1 c1 Eab Ebc).
  - intros [a1 a2] [b1 b2] [c1 c2]; simpl.
    destruct (cmpA a1 b1) eqn:Eab; try discriminate. intros E.
    rewrite (order_eq_l cmpA OA a1 b1 c1 Eab).
    destruct (cmpA b1 c1); auto. now apply (order_eq_l cmpB OB).
Qed.

Lemma Order_Z : Order Z.compare.
Proof.
  constructor.
  - intros a b. apply Z.compare_antisym.
  - intros a b c. rewrite !Z.compare_lt_iff. lia.
  - intros a b c E. apply Z.compare_eq in E. now subst.
Qed.

Context {VL : VersionLib} {HL : VersionLaws VL}.

Lemma Order_version : Order vcompare.
Proof.
  constructor;
    [apply vcompare_antisym | apply vcompare_trans | apply vcompare_eq_l].
Qed.

Lemma Order_key : Order key_compare.
Proof.
  apply Order_lex; [apply Order_lex|];
    first [apply Order_version | apply Order_Z].
Qed.

Lemma key_lt_compare k1 k2 :
  key_lt k1 k2 = true <-> key_compare k1 k2 = Lt.
Proof.
  destruct k1 as [[v1 b1] t1], k2 as [[v2 b2] t2].
  unfold key_lt, key_compare, lex; simpl.
  destruct (vcompare v1 v2); try (split; [reflexivity|reflexivity]);
    try (split; discriminate).
  destruct (Z.compare b1 b2); try (split; [reflexivity|reflexivity]);
    try (split; discriminate).
  rewrite Z.ltb_lt. apply iff_sym, Z.compare_lt_iff.
Qed.

Lemma key_lt_false k1 k2 :
  key_lt k1 k2 = false <-> key_compare k1 k2 <> Lt.
Proof.
  rewrite <- key_lt_compare. destruct (key_lt k1 k2); split; congruence.
Qed.

Lemma before_trans {A} (x y z : SortKey * A) :
  before x y -> before y z -> before x z.
Proof.
  unfold before. rewrite !key_lt_false. intros H1 H2.
  exact (order_not_lt_trans key_compare Order_key (fst x) (fst y) (fst z) H1 H2).
Qed.

Lemma before_of_lt {A} (x y : SortKey * A) :
  key_lt (fst y) (fst x) = true -> before y x.
Proof.
  unfold before. rewrite key_lt_false, key_lt_compare. intros H.
  rewrite (order_antisym key_compare Order_key (fst y) (fst x)), H.
  discriminate.
Qed.

Lemma insert_sorted_In {A} (x : SortKey * A) l y :
  In y (insert_sorted x l) <-> y = x \/ In y l.
Proof.
  induction l as [|z l IH]; simpl.
  - intuition.
  - destruct (key_lt (fst z) (fst x)); simpl; [rewrite IH|]; intuition.
Qed.

Lemma stable_sort_In {A} (l : list (SortKey * A)) y :
  In y (stable_sort l) <-> In y l.
Proof.
  induction l as [|x l IH]; simpl; [reflexivity|].
  rewrite insert_sorted_In, IH. intuition.
Qed.

Lemma insert_sorted_sorted {A} (x : SortKey * A) l :
  StronglySorted before l -> StronglySorted before (insert_sorted x l).
Proof.
  induction 1 as [|z l Hs IH Hz]; simpl.
  - repeat constructor.
  - destruct (key_lt (fst z) (fst x)) eqn:E.
    + constructor; [assumption|].
      rewrite Forall_forall in *. intros y Hy.
      apply insert_sorted_In in Hy. destruct Hy as [->|Hy]; auto.
      now apply before_of_lt.
    + constructor; [now constructor|].
      constructor; [exact E|].
      rewrite Forall_forall in *. intros y Hy.
      apply (before_trans x z y); [exact E | auto].
Qed.

Lemma stable_sort_sorted {A} (l : list (SortKey * A)) :
  StronglySorted before (stable_sort l).
Proof.
  induction l as [|x l IH]; simpl; [constructor|].
  now apply insert_sorted_sorted.
Qed.

Lemma before_refl {A} (x : SortKey * A) : before x x.
Proof.
  unfold before. rewrite key_lt_false.
  pose proof (order_antisym key_compare Order_key (fst x) (fst x)) as E.
  destruct (key_compare (fst x) (fst x)); simpl in E; congruence.
Qed.

Lemma last_item_cons {A} (x : A) l :
  PyStr.last_item (x :: l)
  = match PyStr.last_item l with Some y => Some y | None => Some x end.
Proof.
  unfold PyStr.last_item. simpl. destruct (rev l) as [|y r]; reflexivity.
Qed.

Lemma last_item_In {A} (l : list A) x : PyStr.last_item l = Some x -> In x l.
Proof.
  unfold PyStr.last_item. intros H. apply in_rev.
  destruct (rev l); [discriminate|]. injection H as ->. now left.
Qed.

Lemma last_item_map {A B} (f : A -> B) l :
  PyStr.last_item (map f l) = option_map f (PyStr.last_item l).
Proof.
  unfold PyStr.last_item. rewrite <- map_rev. now destruct (rev l).
Qed.

Lemma last_item_none {A} (l : list A) : PyStr.last_item l = None -> l = [].
Proof.
  destruct l as [|x l]; [reflexivity|]. rewrite last_item_cons.
  destruct (PyStr.last_item l); discriminate.
Qed.

(** The last element of a sorted list is not below any element. *)
Lemma sorted_last_max {A} (l : list (SortKey * A)) x :
  StronglySorted before l -> PyStr.last_item l = Some x ->
  forall y, In y l -> before y x.
Proof.
  induction 1 as [|z l Hs IH Hz]; intros Hlast y Hy; [destruct Hy|].
  rewrite last_item_cons in Hlast.
  destruct (PyStr.last_item l) as [x'|] eqn:E.
  - injection Hlast as ->. destruct Hy as [<-|Hy]; [|now apply IH].
    rewrite Forall_forall in Hz. apply Hz. now apply last_item_In.
  - injection Hlast as ->. apply last_item_none in E. subst l.
    destruct Hy as [<-|[]]. apply before_refl.
Qed.

End Orders.

(** ** [install_conda_exe] *)

Section CondaExe.

Context {VL : VersionLib}.
Variable env : Env.

Lemma key_of_none info :
  key_of info = None <-> parse_version (version info) = None.
Proof.
  unfold key_of. destruct (parse_version (version info)); split; congruence.
Qed.

Lemma sort_key_ok info k w :
  key_of info = Some k -> sort_key info w = (Ok k, w).
Proof.
  unfold key_of, sort_key, Version_of, bind, ret.
  destruct (parse_version (version info)); [|discriminate].
  now intros [= <-].
Qed.

Lemma sort_key_raise info w :
  key_of info = None ->
  sort_key info w = (Raise (InvalidVersion (version info)), w).
Proof.
  unfold key_of, sort_key, Version_of, bind, raise.
  now destruct (parse_version (version info)).
Qed.

Lemma keyed_ok l w :
  (forall r, In r l -> key_of r <> None) ->
  exists ks, keyed l w = (Ok ks, w)
             /\ map snd ks = l
             /\ Forall (fun kr => key_of (snd kr) = Some (fst kr)) ks.
Proof.
  induction l as [|r l IH]; intros H.
  - exists []. repeat split. constructor.
  - destruct IH as (ks & E & Hm & Hk); [intros r' Hr'; apply H; now right|].
    destruct (key_of r) as [k|] eqn:Ek; [|now destruct (H r (or_introl eq_refl))].
    exists ((k, r) :: ks). simpl.
    rewrite (bind_ok _ _ w k w (sort_key_ok r k w Ek)).
    rewrite (bind_ok _ _ w ks w E).
    repeat split; [now rewrite Hm | now constructor].
Qed.

Lemma keyed_raise pre bad post w :
  (forall r, In r pre -> key_of r <> None) ->
  key_of bad = None ->
  keyed (pre ++ bad :: post) w = (Raise (InvalidVersion (version bad)), w).
Proof.
  induction pre as [|r pre IH]; intros H Hbad; simpl.
  - now rewrite (bind_raise _ _ w _ w (sort_key_raise bad w Hbad)).
  - destruct (key_of r) as [k|] eqn:Ek; [|now destruct (H r (or_introl eq_refl))].
    rewrite (bind_ok _ _ w k w (sort_key_ok r k w Ek)).
    rewrite (bind_raise _ _ w (InvalidVersion (version bad)) w);
      [reflexivity|].
    apply IH; [|assumption]. intros r' Hr'. apply H. now right.
Qed.

(** The first record that is rejected, when there is one. *)
Lemma first_rejected l :
  (exists r, In r l /\ key_of r = None) ->
  exists pre bad post,
    l = pre ++ bad :: post
    /\ (forall r, In r pre -> key_of r <> None) /\ key_of bad = None.
Proof.
  induction l as [|x l IH]; intros (r & Hin & Hr); [destruct Hin|].
  destruct (key_of x) as [k|] eqn:Ek.
  - destruct IH as (pre & bad & post & -> & Hpre & Hbad).
    { destruct Hin as [->|Hin]; [congruence|]. now exists r. }
    exists (x :: pre), bad, post. repeat split; [|assumption].
    intros r' [<-|Hr']; [congruence | now apply Hpre].
  - exists [], x, l. repeat split; [intros r' []|assumption].
Qed.

(** [install_conda_exe] once the listing is there. *)
Lemma install_conda_exe_listed w resp w1 infos :
  request_url_with_retry env (listing_url env) w = (Ok resp, w1) ->
  json resp = Ok infos ->
  install_conda_exe env w
  = (candidates <- sort_candidates (for_host env infos) ;;
     if (List.length candidates =? 0)%nat then
       raise (no_package_found env)
     else
       match PyStr.last_item candidates with
       | None => raise IndexError
       | Some chosen => download env chosen
       end) w1.
Proof.
  intros Hreq Hjson. unfold install_conda_exe, listing_url in *.
  cbv zeta. rewrite (bind_ok _ _ w resp w1 Hreq).
  rewrite Hjson. reflexivity.
Qed.

Lemma for_host_In infos r :
  In r (for_host env infos)
  <-> In r infos /\ subdir (attrs r) = platform_subdir env.
Proof. unfold for_host. now rewrite filter_In, String.eqb_eq. Qed.

Context {HL : VersionLaws VL}.

Lemma install_conda_exe_chooses w resp w1 infos :
  request_url_with_retry env (listing_url env) w = (Ok resp, w1) ->
  json resp = Ok infos ->
  for_host env infos <> [] ->
  (forall r, In r (for_host env infos) -> key_of r <> None) ->
  exists chosen kc,
    In chosen (for_host env infos)
    /\ key_of chosen = Some kc
    /\ (forall r kr, In r (for_host env infos) -> key_of r = Some kr ->
                     key_lt kc kr = false)
    /\ install_conda_exe env w = download env chosen w1.
Proof.
  intros Hreq Hjson Hne Hparse.
  rewrite (install_conda_exe_listed w resp w1 infos Hreq Hjson).
  destruct (keyed_ok (for_host env infos) w1 Hparse) as (ks & E & Hm & Hk).
  unfold sort_candidates.
  rewrite (bind_ok _ _ w1 _ w1 (bind_ok _ _ w1 ks w1 E)).
  destruct (PyStr.last_item (stable_sort ks)) as [x|] eqn:Elast.
  - assert (Hx : In x ks)
      by (now apply stable_sort_In, last_item_In).
    rewrite Forall_forall in Hk.
    exists (snd x), (fst x). repeat split.
    + rewrite <- Hm. now apply in_map.
    + now apply Hk.
    + intros r kr Hr Hkr. rewrite <- Hm in Hr.
      apply in_map_iff in Hr. destruct Hr as (y & <- & Hy).
      rewrite (Hk y Hy) in Hkr. injection Hkr as <-.
      apply (sorted_last_max (stable_sort ks) x);
        [apply stable_sort_sorted | assumption | now apply stable_sort_In].
    + unfold ret. rewrite last_item_map, Elast. simpl.
      destruct (stable_sort ks) eqn:Es; [discriminate Elast | reflexivity].
  - apply last_item_none in Elast.
    destruct ks as [|k ks]; [now destruct Hne; rewrite <- Hm|].
    exfalso. assert (Hin : In k (stable_sort (k :: ks)))
      by (apply stable_sort_In; now left).
    rewrite Elast in Hin. destruct Hin.
Qed.

End CondaExe.

(** C3: of a listing, [install_conda_exe] keeps the records whose subdir is
    the subdir of the host and goes on with one of them whose key (version,
    build number, timestamp) is not below the key of any of them.  For the
    listing (1.0, 1, 100, linux-64), (1.2, 0, 50, linux-64),
    (1.2, 0, 90, osx-64) on a linux-64 host that record is (1.2, 0, 50). *)
Theorem conda_exe_selection :
  (forall (VL : VersionLib) (HL : VersionLaws VL) (env : Env)
          (w w1 : World) (resp : Response) (infos : list AnacondaPkg),
      request_url_with_retry env (listing_url env) w = (Ok resp, w1) ->
      json resp = Ok infos ->
      (exists r, In r infos /\ subdir (attrs r) = platform_subdir env) ->
      (forall r, In r infos -> subdir (attrs r) = platform_subdir env ->
                 parse_version (version r) <> None) ->
      exists chosen kc,
        In chosen infos
        /\ subdir (attrs chosen) = platform_subdir env
        /\ key_of chosen = Some kc
        /\ (forall r kr,
               In r infos -> subdir (attrs r) = platform_subdir env ->
               key_of r = Some kr -> key_lt kc kr = false)
        /\ install_conda_exe env w = download env chosen w1)
  /\ (let env := Example.with_server
                   [Example.response 200 Example.listing] Example.package in
      install_conda_exe (VL := Release.lib) env []
      = download env Example.newer
          [Did (Get (listing_url env))]).
Proof.
  split; [|reflexivity].
  intros VL HL env w w1 resp infos Hreq Hjson (r0 & Hin0 & Hsub0) Hparse.
  destruct (install_conda_exe_chooses env w resp w1 infos Hreq Hjson)
    as (chosen & kc & Hin & Hk & Hmax & E).
  - intros Hnil.
    assert (H : In r0 (for_host env infos))
      by (now apply for_host_In).
    rewrite Hnil in H. destruct H.
  - intros r Hr. apply for_host_In in Hr. destruct Hr as [Hr Hs].
    rewrite key_of_none. now apply Hparse.
  - apply for_host_In in Hin. destruct Hin as [Hin Hs].
    exists chosen, kc. repeat split; try assumption.
    intros r kr Hr Hrs Hkr. apply (Hmax r kr); [|assumption].
    now apply for_host_In.
Qed.

Lemma conda_exe_selection_witness :
  let env := Example.with_server
               [Example.response 200 Example.listing] Example.package in
  exists chosen kc,
    In chosen Example.listing
    /\ subdir (attrs chosen) = "linux-64"
    /\ key_of (VL := Release.lib) chosen = Some kc
    /\ (forall r kr,
           In r Example.listing -> subdir (attrs r) = "linux-64" ->
           key_of (VL := Release.lib) r = Some kr -> key_lt kc kr = false)
    /\ install_conda_exe (VL := Release.lib) env []
       = download env chosen
           [Did (Get (listing_url env))].
Proof.
  intros env.
  apply (proj1 conda_exe_selection Release.lib ReleaseLaws.laws env []
           [Did (Get (listing_url env))]
           (Example.response 200 Example.listing) Example.listing
           eq_refl eq_refl).
  - exists Example.older. split; [now left | reflexivity].
  - intros r [<-|[<-|[<-|[]]]] _; discriminate.
Defined.

(** C10: when a record for the host carries a version string that the
    version parser rejects, [install_conda_exe] raises [InvalidVersion] for
    the first such record while it computes the sort keys, whatever the
    other records are: nothing is downloaded and nothing is skipped. *)
Theorem malformed_version_aborts_install :
  forall (VL : VersionLib) (env : Env) (w w1 : World) (resp : Response)
         (infos : list AnacondaPkg),
    request_url_with_retry env (listing_url env) w = (Ok resp, w1) ->
    json resp = Ok infos ->
    (exists r, In r infos /\ subdir (attrs r) = platform_subdir env
               /\ parse_version (version r) = None) ->
    exists pre bad post,
      for_host env infos = pre ++ bad :: post
      /\ (forall r, In r pre -> parse_version (version r) <> None)
      /\ parse_version (version bad) = None
      /\ install_conda_exe env w = (Raise (InvalidVersion (version bad)), w1).
Proof.
  intros VL env w w1 resp infos Hreq Hjson (r & Hin & Hsub & Hbad).
  destruct (first_rejected (for_host env infos))
    as (pre & bad & post & E & Hpre & Hb).
  { exists r. split; [now apply for_host_In | now apply key_of_none]. }
  exists pre, bad, post. repeat split.
  - assumption.
  - intros r' Hr'. rewrite <- key_of_none. now apply Hpre.
  - now apply key_of_none.
  - rewrite (install_conda_exe_listed env w resp w1 infos Hreq Hjson), E.
    unfold sort_candidates.
    now rewrite (bind_raise _ _ w1 _ w1
                   (bind_raise _ _ w1 _ w1 (keyed_raise pre bad post w1 Hpre Hb))).
Qed.

Lemma malformed_version_aborts_install_witness :
  let env := Example.with_server
               [Example.response 200
                  [Example.older; Example.malformed; Example.newer]]
               Example.package in
  exists pre bad post,
    for_host env [Example.older; Example.malformed; Example.newer]
    = pre ++ bad :: post
    /\ (forall r, In r pre ->
                  parse_version (VersionLib := Release.lib) (version r) <> None)
    /\ parse_version (VersionLib := Release.lib) (version bad) = None
    /\ install_conda_exe (VL := Release.lib) env []
       = (Raise (InvalidVersion (version bad)), [Did (Get (listing_url env))]).
Proof.
  intros env.
  apply (malformed_version_aborts_install Release.lib env []
           [Did (Get (listing_url env))]
           (Example.response 200
              [Example.older; Example.malformed; Example.newer])
           [Example.older; Example.malformed; Example.newer]
           eq_refl eq_refl).
  exists Example.malformed. repeat split. right. now left.
Defined.

(** C6: when no record of the listing is for the host, [install_conda_exe]
    raises [RuntimeError] as soon as the listing is there: no further request
    is made and nothing else is tried.  The error passes through
    [ensureconda], whose outcome is then an exception and not the value
    [None] that a search without success returns. *)
Theorem empty_candidate_set_is_fatal :
  forall (VL : VersionLib) (env : Env) (w w1 : World) (resp : Response)
         (infos : list AnacondaPkg),
    request_url_with_retry env (listing_url env) w = (Ok resp, w1) ->
    json resp = Ok infos ->
    (forall r, In r infos -> subdir (attrs r) <> platform_subdir env) ->
    install_conda_exe env w = (Raise (no_package_found env), w1)
    /\ forall cfg : Config,
        micromamba cfg = false ->
        conda_exe cfg = true ->
        (mamba cfg = true -> executables env Mamba w = []) ->
        (conda cfg = true -> executables env Conda w = []) ->
        executables env CondaStandalone w = [] ->
        (no_install cfg = false ->
         ensureconda env cfg w = (Raise (no_package_found env), w1)
         /\ fst (ensureconda env cfg w) <> Ok None)
        /\ (no_install cfg = true -> ensureconda env cfg w = (Ok None, w)).
Proof.
  intros VL env w w1 resp infos Hreq Hjson Hnone.
  assert (Hempty : for_host env infos = []).
  { destruct (for_host env infos) as [|r l] eqn:E; [reflexivity|].
    assert (H : In r (for_host env infos)) by (rewrite E; now left).
    apply for_host_In in H. destruct H as [H1 H2]. now destruct (Hnone r). }
  assert (Hinst : install_conda_exe env w = (Raise (no_package_found env), w1)).
  { rewrite (install_conda_exe_listed env w resp w1 infos Hreq Hjson), Hempty.
    reflexivity. }
  split; [exact Hinst|].
  intros cfg Hmm Hce Hm Hc Hcs.
  assert (F : ensureconda env cfg w
              = (if no_install cfg then (Ok None, w)
                 else (Raise (no_package_found env), w1))).
  { unfold ensureconda. rewrite Hmm, Hce.
    destruct (mamba cfg), (conda cfg);
      repeat (cbv beta iota zeta delta [bind resolve or_else ret for_candidates];
              rewrite ?(Hm eq_refl), ?(Hc eq_refl), ?Hcs);
      destruct (no_install cfg); cbv beta iota zeta delta [negb];
      rewrite ?Hinst; reflexivity. }
  split; intros Hni; rewrite F, Hni;
    [split; [reflexivity|discriminate] | reflexivity].
Qed.

Lemma empty_candidate_set_is_fatal_witness :
  let env := Example.with_server
               [Example.response 200 [Example.foreign]] Example.package in
  let cfg := @Build_Config Release.lib true false true true false
               (Some [4; 8; 2]%N) (Some [0; 7; 3]%N) in
  install_conda_exe (VL := Release.lib) env []
  = (Raise (no_package_found env), [Did (Get (listing_url env))])
  /\ fst (ensureconda (VL := Release.lib) env cfg []) <> Ok None.
Proof.
  intros env cfg.
  destruct (empty_candidate_set_is_fatal Release.lib env []
              [Did (Get (listing_url env))]
              (Example.response 200 [Example.foreign]) [Example.foreign]
              eq_refl eq_refl) as [H1 H2].
  - intros r [<-|[]]. discriminate.
  - split; [exact H1|].
    destruct (H2 cfg eq_refl eq_refl (fun _ => eq_refl) (fun _ => eq_refl)
                eq_refl) as [H3 _].
    exact (proj2 (H3 eq_refl)).
Defined.

(** ** Placing an executable *)

Section Placement.

Variable env : Env.

Lemma with_name_path_div (p : Path) (n h : string) :
  with_name (path_div p n) h = path_div p h.
Proof. unfold with_name, path_div. now rewrite removelast_last. Qed.

Lemma path_div_parent (p : Path) (n : string) : path_parent (path_div p n) = p.
Proof. unfold path_parent, path_div. apply removelast_last. Qed.

Lemma path_div_inj (p : Path) (n h : string) :
  path_div p h = path_div p n -> h = n.
Proof.
  unfold path_div. intros H. apply app_inv_head in H. now injection H.
Qed.

Ltac run_step :=
  match goal with
  | |- context [fault env ?w ?o] => destruct (fault env w o) eqn:?
  | |- context [os_stat env ?w ?p] => destruct (os_stat env w p) eqn:?
  end.

Ltac refute_in H :=
  simpl in H; repeat (destruct H as [H|H]; try discriminate);
  try contradiction.

(** One path through [write_executable_from_file_object]. *)
Ltac placement_path hex Hq :=
  simpl; repeat rewrite <- app_assoc; simpl;
  eexists _, hex; (split; [reflexivity|]);
  (split; [reflexivity|]);
  (split; [repeat constructor; unfold writes_in_place; simpl;
           first [tauto | apply Hq]|]);
  (split; [first [ intros _; reflexivity
                 | intros Hin; exfalso; refute_in Hin ]|]);
  (split;
   [ intros src dst Hin; refute_in Hin;
     injection Hin as <- <-;
     eexists _, _, _;
     (split; [reflexivity|]; split; [|reflexivity]; reflexivity)
   | intros p Hp; try discriminate; injection Hp as <-;
     (split; [reflexivity | simpl; tauto]) ]).

Lemma write_executable_trace fo dest w (q : Path) :
  (forall w', path_div (site_path env) (uuid4_hex env w') <> q) ->
  let target := path_div (site_path env) dest in
  let lock := (path_str (path_sep env) target ++ ".lock")%string in
  exists evs hex,
    let temp := path_div (site_path env) hex in
    snd (write_executable_from_file_object env fo dest w) = w ++ evs
    /\ hex = uuid4_hex env
               (w ++ [Did (Mkdir (site_path env)); Did (LockAcquire lock)])
    /\ Forall (fun ev => ~ writes_in_place q ev) evs
    /\ (In (Did (LockAcquire lock)) evs ->
        option_map op_of (PyStr.last_item evs) = Some (LockRelease lock))
    /\ (forall src dst, In (Did (Rename src dst)) evs ->
          exists data st_mode rel,
            fo = Some data /\ op_of rel = LockRelease lock
            /\ evs = placement (site_path env) lock temp target
                       data st_mode rel)
    /\ (forall p, fst (write_executable_from_file_object env fo dest w) = Ok p ->
          p = target /\ In (Did (Rename temp target)) evs).
Proof.
  intros Hq target lock.
  unfold write_executable_from_file_object, new_executable, with_FileLock,
    with_open_wb, uuid4, fo_read.
  fold target. fold lock.
  unfold bind, try_finally, perform, ask, ret, raise.
  pose (hex := uuid4_hex env
                 (w ++ [Did (Mkdir (site_path env)); Did (LockAcquire lock)])).
  assert (Hwn : forall h, with_name target h = path_div (site_path env) h)
    by (intros h; apply with_name_path_div).
  destruct (fault env w (Mkdir (site_path env))) eqn:E1;
    [placement_path hex Hq|].
  destruct (fault env (w ++ [Did (Mkdir (site_path env))]) (LockAcquire lock))
    eqn:E2; [placement_path hex Hq|].
  rewrite !Hwn.
  destruct fo as [data|]; repeat run_step; placement_path hex Hq.
Qed.

Lemma temp_is_not_target dest :
  (forall w', uuid4_hex env w' <> dest) ->
  forall w', path_div (site_path env) (uuid4_hex env w')
             <> path_div (site_path env) dest.
Proof. intros H w' E. apply path_div_inj in E. now apply (H w'). Qed.

(** *** The installers write through [write_executable_from_file_object] *)

Lemma placing_of_emits {A} (m : M A) : emits net_event m -> placing env m.
Proof.
  intros H w. destruct (H w) as (evs & E & F).
  exists evs, []. repeat split; [assumption | constructor |].
  left. now rewrite app_nil_r.
Qed.

Lemma placing_write fo dest :
  placing env (write_executable_from_file_object env fo dest).
Proof.
  intros w. exists [], []. repeat split; [constructor | constructor |].
  right. exists fo, dest. now rewrite !app_nil_r.
Qed.

Lemma placing_after_net {A B} (m : M A) (f : A -> M B) :
  emits net_event m -> (forall a, placing env (f a)) -> placing env (bind m f).
Proof.
  intros Hm Hf w. destruct (Hm w) as (net1 & E1 & F1).
  unfold bind. destruct (m w) as [[a|e] w1]; simpl in *; subst w1.
  - destruct (Hf a (w ++ net1)) as (net & post & Fn & Fp & [E|(fo & dest & E)]).
    + exists (net1 ++ net), post. repeat split;
        [now apply Forall_app | assumption|].
      left. now rewrite E, <- !app_assoc.
    + exists (net1 ++ net), post. repeat split;
        [now apply Forall_app | assumption|].
      right. exists fo, dest. now rewrite E, <- !app_assoc.
  - exists net1, []. repeat split; [assumption | constructor |].
    left. now rewrite app_nil_r.
Qed.

Lemma placing_before_net {A B} (m : M A) (f : A -> M B) :
  placing env m -> (forall a, emits net_event (f a)) -> placing env (bind m f).
Proof.
  intros Hm Hf w.
  destruct (Hm w) as (net & post & Fn & Fp & H).
  unfold bind. destruct (m w) as [[a|e] w1]; simpl in *.
  - destruct (Hf a w1) as (net2 & E2 & F2).
    exists net, (post ++ net2). repeat split;
      [assumption | now apply Forall_app |].
    rewrite E2. destruct H as [->|(fo & dest & ->)].
    + left. now rewrite <- !app_assoc.
    + right. exists fo, dest. now rewrite <- !app_assoc.
  - now exists net, post.
Qed.

Lemma placing_try_finally {A} (body : M A) (fin : M unit) :
  placing env body -> emits net_event fin ->
  placing env (try_finally body fin).
Proof.
  intros Hb Hf w.
  destruct (Hb w) as (net & post & Fn & Fp & H).
  unfold try_finally. destruct (body w) as [r w1]; simpl in *.
  destruct (Hf w1) as (net2 & E2 & F2).
  assert (G : one_placement env w (w1 ++ net2)).
  { exists net, (post ++ net2). repeat split;
      [assumption | now apply Forall_app |].
    destruct H as [->|(fo & dest & ->)].
    - left. now rewrite <- !app_assoc.
    - right. exists fo, dest. now rewrite <- !app_assoc. }
  destruct (fin w1) as [[u|e] w2]; simpl in *; now subst w2.
Qed.

Lemma emits_net_request url : emits net_event (request_url_with_retry env url).
Proof. apply emits_request_url_with_retry. auto. Qed.

Lemma placing_install_micromamba : placing env (install_micromamba env).
Proof.
  unfold install_micromamba, extract_files_from_tar_bz2.
  apply placing_after_net; [apply emits_net_request|]. intros resp.
  apply placing_before_net; [|intros p; apply emits_ret].
  apply placing_after_net; [apply emits_lift|]. intros tf.
  apply placing_after_net.
  { unfold extractfile. destruct (find _ _) as [[n [d|]]|];
      first [apply emits_ret | apply emits_raise]. }
  intros [d|]; [apply placing_write | apply placing_of_emits, emits_raise].
Qed.

Lemma placing_stream_loop members dest :
  placing env (stream_loop env members dest).
Proof.
  induction members as [|[n m] members IH]; simpl.
  - apply placing_of_emits, emits_raise.
  - destruct (String.eqb _ _); [apply placing_write | exact IH].
Qed.

Lemma emits_sort_candidates {VL : VersionLib} l :
  emits net_event (sort_candidates l).
Proof.
  unfold sort_candidates. apply emits_bind; [|intros; apply emits_ret].
  induction l as [|x l IH]; simpl; [apply emits_ret|].
  apply emits_bind.
  - unfold sort_key, Version_of. apply emits_bind; [|intros; apply emits_ret].
    destruct (parse_version _); [apply emits_ret | apply emits_raise].
  - intros k. apply emits_bind; [exact IH | intros; apply emits_ret].
Qed.

Lemma placing_install_conda_exe {VL : VersionLib} :
  placing env (install_conda_exe env).
Proof.
  unfold install_conda_exe, stream_conda_executable. cbv zeta.
  apply placing_after_net; [apply emits_net_request|]. intros resp.
  apply placing_after_net; [apply emits_lift|]. intros infos.
  apply placing_after_net; [apply emits_sort_candidates|]. intros sorted.
  destruct (_ =? _)%nat; [apply placing_of_emits, emits_raise|].
  destruct (PyStr.last_item sorted) as [chosen|];
    [|apply placing_of_emits, emits_raise].
  apply placing_before_net; [|intros p; apply emits_ret].
  apply placing_after_net.
  { apply emits_perform; [|intros e]; exact I. }
  intros _. apply placing_try_finally.
  - apply placing_after_net.
    + apply emits_ask; [|intros e]; exact I.
    + intros members. apply placing_stream_loop.
  - apply emits_perform; [|intros e]; exact I.
Qed.

End Placement.

(** *** What the whole of [ensureconda] emits *)

Section ProgramEmits.

Context {VL : VersionLib}.
Variable env : Env.
Variable P : Event -> Prop.
Hypothesis P_run : forall ev exe, op_of ev = Run exe -> P ev.
Hypothesis P_net : forall ev, net_event ev -> P ev.
Hypothesis P_write : forall fo dest,
    emits P (write_executable_from_file_object env fo dest).

Ltac emit := emit_by ltac:(eapply P_run; reflexivity) fail.

Lemma emits_Version_of s : emits P (Version_of s).
Proof. unfold Version_of. destruct (parse_version s); emit. Qed.

Lemma emits_version_of_line line : emits P (version_of_line line).
Proof.
  unfold version_of_line.
  destruct (PyStr.last_item _); [apply emits_Version_of | emit].
Qed.

Lemma emits_determine_micromamba_version exe :
  emits P (determine_micromamba_version env exe).
Proof.
  unfold determine_micromamba_version, subprocess_check_output. emit.
  cbv zeta. destruct (PyStr.splitlines _);
    [apply emits_Version_of | apply emits_version_of_line].
Qed.

Lemma emits_determine_mamba_version exe :
  emits P (determine_mamba_version env exe).
Proof.
  unfold determine_mamba_version, subprocess_check_output. emit.
  cbv zeta. destruct (find _ _);
    [apply emits_version_of_line | apply emits_determine_micromamba_version].
Qed.

Lemma emits_determine_conda_version exe :
  emits P (determine_conda_version env exe).
Proof.
  unfold determine_conda_version, subprocess_check_output. emit.
  cbv zeta. destruct (find _ _);
    [apply emits_version_of_line | apply emits_Version_of].
Qed.

Lemma emits_version_constraint_met exe min_version version_fn :
  emits P (version_fn exe) ->
  emits P (version_constraint_met exe min_version version_fn).
Proof.
  intros H. destruct min_version as [m|]; simpl; [|emit].
  apply emits_bind; [assumption | intros v; emit].
Qed.

Lemma emits_for_candidates met exes :
  (forall exe, emits P (met exe)) -> emits P (for_candidates met exes).
Proof.
  intros H. induction exes as [|exe exes IH]; simpl; [emit|].
  destruct (truthy exe); [|exact IH].
  apply emits_bind; [apply H|]. intros [|]; [emit | exact IH].
Qed.

Lemma emits_check_installed met maybe_exe :
  (forall exe, emits P (met exe)) -> emits P (check_installed met maybe_exe).
Proof.
  intros H. destruct maybe_exe as [p|]; simpl; [|emit].
  apply emits_bind; [apply H|]. intros [|]; emit.
Qed.

Lemma emits_or_else r next : emits P next -> emits P (or_else r next).
Proof. intros H. destruct r; simpl; [emit | exact H]. Qed.

Lemma emits_ensureconda cfg : emits P (ensureconda env cfg).
Proof.
  unfold ensureconda.
  repeat first
    [ apply emits_ret | apply emits_resolve
    | apply emits_or_else
    | apply emits_for_candidates; intro
    | apply emits_check_installed; intro
    | apply emits_version_constraint_met
    | apply emits_determine_mamba_version
    | apply emits_determine_micromamba_version
    | apply emits_determine_conda_version
    | apply emits_install_micromamba; assumption
    | apply emits_install_conda_exe; assumption
    | match goal with
      | |- emits P (if ?b then _ else _) => destruct b
      end
    | apply emits_bind; [|intro] ].
Qed.

End ProgramEmits.

(** C4: [write_executable_from_file_object], through [new_executable], never
    opens the destination nor writes to it.  Once the lock of the destination
    is acquired, the last thing that happens is its release, on every path.
    When the destination is renamed onto, the whole content was written to a
    temporary file of the same directory, that file was closed and made
    executable, all of it under the lock.  The installers touch the file
    system through this procedure only, and no event of a run of
    [ensureconda] writes the destination in place.  The name of the
    temporary file is taken to differ from the name of the destination. *)
Theorem atomic_placement :
  forall (VL : VersionLib) (env : Env) (dest : string),
    (forall w, uuid4_hex env w <> dest) ->
    let target := path_div (site_path env) dest in
    let lock := (path_str (path_sep env) target ++ ".lock")%string in
    (forall (fo : option bytes) (w : World),
        exists evs hex,
          let temp := path_div (site_path env) hex in
          snd (write_executable_from_file_object env fo dest w) = w ++ evs
          /\ path_parent temp = path_parent target
          /\ temp <> target
          /\ Forall (fun ev => ~ writes_in_place target ev) evs
          /\ (In (Did (LockAcquire lock)) evs ->
              option_map op_of (PyStr.last_item evs)
              = Some (LockRelease lock))
          /\ (forall src dst, In (Did (Rename src dst)) evs ->
                exists data st_mode rel,
                  fo = Some data /\ op_of rel = LockRelease lock
                  /\ evs = placement (site_path env) lock temp target
                             data st_mode rel)
          /\ (forall p,
                 fst (write_executable_from_file_object env fo dest w) = Ok p ->
                 p = target /\ In (Did (Rename temp target)) evs))
    /\ (forall w : World,
           one_placement env w (snd (install_micromamba env w))
           /\ one_placement env w (snd (install_conda_exe env w)))
    /\ (forall (cfg : Config) (w : World),
           Forall (fun ev => ~ writes_in_place target ev)
             (events_since w (snd (ensureconda env cfg w)))).
Proof.
  intros VL env dest Huuid target lock.
  pose proof (temp_is_not_target env dest Huuid) as Hq.
  split; [|split].
  - intros fo w.
    destruct (write_executable_trace env fo dest w target Hq)
      as (evs & hex & E & Hhex & Hw & Hl & Hr & Hok).
    exists evs, hex. cbv zeta.
    split; [assumption|].
    split; [unfold target; now rewrite !path_div_parent|].
    split; [rewrite Hhex; apply Hq|].
    repeat (split; [assumption|]). assumption.
  - intros w. split;
      [apply placing_install_micromamba | apply placing_install_conda_exe].
  - intros cfg w.
    assert (Hwrite : forall fo d,
               emits (fun ev => ~ writes_in_place target ev)
                 (write_executable_from_file_object env fo d)).
    { intros fo d w0.
      destruct (write_executable_trace env fo d w0 target Hq)
        as (evs & hex & E & _ & Hw & _).
      now exists evs. }
    destruct (emits_ensureconda env (fun ev => ~ writes_in_place target ev)
                (fun ev exe H => ltac:(unfold writes_in_place; now rewrite H))
                (fun ev H => ltac:(unfold net_event, writes_in_place in *;
                                   now destruct (op_of ev)))
                Hwrite cfg w) as (evs & E & F).
    now rewrite E, events_since_app.
Qed.

Lemma atomic_placement_witness :
  let env := Example.with_server
               [Example.response 500 []; Example.response 200 []]
               [("bin/micromamba", RegFile [Byte.x7f; Byte.x45])] in
  let target := path_div Example.site "micromamba" in
  Forall (fun ev => ~ writes_in_place target ev)
    (events_since []
       (snd (ensureconda (VL := Release.lib) env
               (Example.config true None None) []))).
Proof.
  intros env target.
  apply (proj2 (proj2 (atomic_placement Release.lib env "micromamba"
                         (fun w H => ltac:(discriminate H))))).
Defined.

(** ** The orchestrator *)

Section Refinement.

Context {VL : VersionLib}.
Variable env : Env.
Variable cfg : Config.

Hypothesis candidates_truthy :
  forall k w, Forall (fun exe => truthy exe = true) (executables env k w).

Lemma bind_ext {A B} (m m' : M A) (f f' : A -> M B) w :
  m w = m' w -> (forall a w', f a w' = f' a w') ->
  bind m f w = bind m' f' w.
Proof.
  unfold bind. intros -> H. destruct (m' w) as [[a|e] w']; auto.
Qed.

Lemma for_candidates_first_satisfying k exes :
  Forall (fun exe => truthy exe = true) exes ->
  forall w,
    for_candidates (satisfies env cfg k) exes w
    = first_satisfying env cfg k exes w.
Proof.
  induction 1 as [|exe exes Ht _ IH]; intros w; simpl; [reflexivity|].
  rewrite Ht. apply bind_ext; [reflexivity|].
  intros [|] w'; [reflexivity | apply IH].
Qed.

Lemma resolve_bind {A} k (f : list StrPath -> M A) w :
  (exes <- resolve env k ;; f exes) w = f (executables env k w) w.
Proof. reflexivity. Qed.

Lemma check_installed_recheck k install w :
  (maybe_exe <- install ;; check_installed (satisfies env cfg k) maybe_exe) w
  = install_and_recheck env cfg k install w.
Proof.
  unfold install_and_recheck. apply bind_ext; [reflexivity|].
  intros [p|] w'; simpl; [|reflexivity].
  apply bind_ext; [reflexivity|]. now intros [|] w''.
Qed.

(** A kind without installer. *)
Lemma step_search k w :
  installer env k = None ->
  (exes <- resolve env k ;; for_candidates (satisfies env cfg k) exes) w
  = spec_step env cfg k w.
Proof.
  intros Hk. unfold spec_step. rewrite !resolve_bind.
  rewrite (for_candidates_first_satisfying k _ (candidates_truthy k w)).
  unfold bind. rewrite Hk.
  now destruct (first_satisfying env cfg k (executables env k w) w)
    as [[[exe|] | e] w'].
Qed.

(** A kind with an installer. *)
Lemma step_search_install k install w :
  installer env k = Some install ->
  (exes <- resolve env k ;;
   r <- for_candidates (satisfies env cfg k) exes ;;
   or_else r
     (if negb (no_install cfg) then
        maybe_exe <- install ;;
        check_installed (satisfies env cfg k) maybe_exe
      else ret None)) w
  = spec_step env cfg k w.
Proof.
  intros Hk. unfold spec_step. rewrite !resolve_bind.
  apply bind_ext.
  - apply for_candidates_first_satisfying, candidates_truthy.
  - intros [exe|] w'; rewrite ?Hk; simpl; [reflexivity|].
    destruct (no_install cfg); simpl; [reflexivity|].
    apply check_installed_recheck.
Qed.

Lemma traverse_step k kinds (step rest : M (option StrPath)) w :
  (forall w', step w' = spec_step env cfg k w') ->
  (forall w', rest w' = spec_traverse env cfg kinds w') ->
  (r <- (if enabled cfg k then step else ret None) ;; or_else r rest) w
  = spec_traverse env cfg (k :: kinds) w.
Proof.
  intros Hstep Hrest. simpl. destruct (enabled cfg k).
  - apply bind_ext; [apply Hstep|].
    intros [exe|] w'; [reflexivity | apply Hrest].
  - apply Hrest.
Qed.

Lemma ensureconda_refines w :
  ensureconda env cfg w = ensureconda_spec env cfg w.
Proof.
  unfold ensureconda, ensureconda_spec, priority.
  apply (traverse_step Mamba);
    [intros w1; now apply (step_search Mamba)|intros w1].
  apply (traverse_step Micromamba);
    [intros w2; now apply (step_search_install Micromamba)|intros w2].
  apply (traverse_step Conda);
    [intros w3; now apply (step_search Conda)|intros w3].
  apply (traverse_step CondaStandalone);
    [intros w4; now apply (step_search_install CondaStandalone)|intros w4].
  reflexivity.
Qed.

(** *** Without installation, with candidates that answer *)

Section Found.

Variable cands : ToolKind -> list StrPath.
Variable ver : ToolKind -> StrPath -> Version.

Hypothesis candidates_fixed : forall k w, executables env k w = cands k.
Hypothesis candidates_answer : forall k exe w,
    In exe (cands k) -> fst (prober env k exe w) = Ok (ver k exe).
Hypothesis installation_off : no_install cfg = true.

Lemma satisfies_meets k exe w :
  In exe (cands k) ->
  exists w', satisfies env cfg k exe w
             = (Ok (meets (constraint cfg k) (ver k exe)), w').
Proof.
  intros Hin. unfold satisfies, version_constraint_met, meets.
  destruct (constraint cfg k) as [m|]; [|now exists w].
  pose proof (candidates_answer k exe w Hin) as H. unfold bind.
  destruct (prober env k exe w) as [[v|e] w']; simpl in H; [|discriminate].
  injection H as ->. now exists w'.
Qed.

Lemma first_satisfying_find k exes : forall w,
  (forall exe, In exe exes -> In exe (cands k)) ->
  exists w', first_satisfying env cfg k exes w
             = (Ok (find (fun exe => meets (constraint cfg k) (ver k exe)) exes),
                w').
Proof.
  induction exes as [|exe exes IH]; intros w Hsub; simpl; [now exists w|].
  destruct (satisfies_meets k exe w (Hsub exe (or_introl eq_refl)))
    as (w1 & E).
  rewrite (bind_ok _ _ w _ w1 E).
  destruct (meets (constraint cfg k) (ver k exe)); [now exists w1|].
  apply IH. intros exe' H. apply Hsub. now right.
Qed.

Lemma spec_step_found k w :
  exists w', spec_step env cfg k w = (Ok (first_meeting cfg cands ver k), w').
Proof.
  unfold spec_step. rewrite resolve_bind, candidates_fixed.
  destruct (first_satisfying_find k (cands k) w (fun exe H => H)) as (w1 & E).
  rewrite (bind_ok _ _ w _ w1 E). fold (first_meeting cfg cands ver k).
  destruct (first_meeting cfg cands ver k) as [exe|]; [now exists w1|].
  rewrite installation_off. destruct (installer env k); now exists w1.
Qed.

Lemma spec_traverse_found kinds : forall w,
  exists w', spec_traverse env cfg kinds w
             = (Ok (first_found cfg cands ver kinds), w').
Proof.
  induction kinds as [|k kinds IH]; intros w; simpl; [now exists w|].
  destruct (enabled cfg k); [|apply IH].
  destruct (spec_step_found k w) as (w1 & E).
  rewrite (bind_ok _ _ w _ w1 E).
  destruct (first_meeting cfg cands ver k) as [exe|]; [now exists w1|].
  apply IH.
Qed.

End Found.

End Refinement.

(** C1: whatever kinds are enabled, [ensureconda] is the traversal of the
    kinds in the order mamba, micromamba, conda, conda-standalone that the
    specification describes: per enabled kind the first candidate whose
    version satisfies the constraint of the kind is returned; for micromamba
    and conda-standalone, when no candidate satisfies and installation is
    permitted, the installer runs once and the installed path is checked
    against the constraint and returned if it satisfies; the result is [None]
    when no step returns.  Candidates are paths, hence truthy; an exception
    of a probe or of an installer ends both computations alike.  When every
    candidate answers with its version and nothing is installed, the result
    is the first satisfying candidate of the first enabled kind that has
    one. *)
Theorem ensureconda_traversal :
  forall (VL : VersionLib) (env : Env) (cfg : Config),
    (forall k w, Forall (fun exe => truthy exe = true) (executables env k w)) ->
    (forall w : World, ensureconda env cfg w = ensureconda_spec env cfg w)
    /\ (forall (cands : ToolKind -> list StrPath)
                (ver : ToolKind -> StrPath -> Version),
           (forall k w, executables env k w = cands k) ->
           (forall k exe w,
               In exe (cands k) -> fst (prober env k exe w) = Ok (ver k exe)) ->
           no_install cfg = true ->
           forall w : World,
             fst (ensureconda env cfg w)
             = Ok (first_found cfg cands ver priority)).
Proof.
  intros VL env cfg H. split.
  - intros w. now apply ensureconda_refines.
  - intros cands ver Hc Ha Hn w. rewrite (ensureconda_refines env cfg H w).
    destruct (spec_traverse_found env cfg cands ver Hc Ha Hn priority w)
      as (w' & E).
    unfold ensureconda_spec. now rewrite E.
Qed.

Lemma ensureconda_traversal_witness :
  let cfg := Example.config false (Some [4; 8; 2]%N) (Some [0; 7; 3]%N) in
  ensureconda (VL := Release.lib) Example.silent_first cfg []
  = ensureconda_spec (VL := Release.lib) Example.silent_first cfg []
  /\ fst (ensureconda (VL := Release.lib) Example.silent_first cfg [])
     = Ok (Some Example.conda_b).
Proof.
  intros cfg.
  destruct (ensureconda_traversal Release.lib Example.silent_first cfg)
    as [H1 H2].
  - intros [] w; repeat constructor.
  - split; [apply H1|].
    apply (H2 (fun k => match k with
                        | Conda => [Example.conda_a; Example.conda_b]
                        | _ => []
                        end)
              (fun _ exe => match exe with
                            | AsStr "/opt/a/bin/conda" => []
                            | _ => [23; 5]%N
                            end)).
    + now intros [] w.
    + intros [] exe w Hin; simpl in Hin; try contradiction.
      destruct Hin as [<-|[<-|[]]]; reflexivity.
    + reflexivity.
Defined.

(** * Further properties *)

(** ** What [ensureconda] returns *)

Lemma bind_inv_ok {A B} (m : M A) (f : A -> M B) w b w' :
  bind m f w = (Ok b, w') ->
  exists a w1, m w = (Ok a, w1) /\ f a w1 = (Ok b, w').
Proof.
  unfold bind. destruct (m w) as [[a|e] w1]; [|discriminate].
  intros H. now exists a, w1.
Qed.

Section Returned.

Context {VL : VersionLib}.
Variable env : Env.
Variable cfg : Config.

Lemma for_candidates_inv met exes : forall w exe w',
  for_candidates met exes w = (Ok (Some exe), w') ->
  In exe exes /\ truthy exe = true /\ exists w0, met exe w0 = (Ok true, w').
Proof.
  induction exes as [|x exes IH]; intros w exe w' H; simpl in H;
    [discriminate|].
  destruct (truthy x) eqn:Ht.
  - apply bind_inv_ok in H. destruct H as ([|] & w1 & Hm & H).
    + injection H as <- <-. repeat split; [now left | assumption |].
      now exists w.
    + destruct (IH _ _ _ H) as (Hin & Hx & Hw). repeat split; auto.
      now right.
  - destruct (IH _ _ _ H) as (Hin & Hx & Hw). repeat split; auto. now right.
Qed.

Lemma check_installed_inv met maybe_exe w exe w' :
  check_installed met maybe_exe w = (Ok (Some exe), w') ->
  exists p, maybe_exe = Some p /\ exe = AsPath p
            /\ met exe w = (Ok true, w').
Proof.
  destruct maybe_exe as [p|]; simpl; [|discriminate].
  intros H. apply bind_inv_ok in H. destruct H as ([|] & w1 & Hm & H);
    [|discriminate].
  injection H as <- <-. now exists p.
Qed.

(** A step that returns, or the steps after it. *)
Lemma or_else_inv (step rest : M (option StrPath)) w exe w' :
  (r <- step ;; or_else r rest) w = (Ok (Some exe), w') ->
  step w = (Ok (Some exe), w')
  \/ exists w1, step w = (Ok None, w1) /\ rest w1 = (Ok (Some exe), w').
Proof.
  intros H. apply bind_inv_ok in H. destruct H as ([x|] & w1 & Hs & H).
  - left. simpl in H. injection H as <- <-. exact Hs.
  - right. now exists w1.
Qed.

Lemma search_checked k w exe w' :
  enabled cfg k = true ->
  (exes <- resolve env k ;; for_candidates (satisfies env cfg k) exes) w
  = (Ok (Some exe), w') ->
  checked env cfg k exe w'.
Proof.
  intros He H. change (for_candidates (satisfies env cfg k)
                         (executables env k w) w = (Ok (Some exe), w')) in H.
  destruct (for_candidates_inv _ _ _ _ _ H) as (Hin & Ht & Hw).
  repeat split; try assumption. left. now exists w.
Qed.

Lemma search_install_checked k install w exe w' :
  enabled cfg k = true ->
  installer env k = Some install ->
  (exes <- resolve env k ;;
   r <- for_candidates (satisfies env cfg k) exes ;;
   or_else r
     (if negb (no_install cfg) then
        maybe_exe <- install ;;
        check_installed (satisfies env cfg k) maybe_exe
      else ret None)) w
  = (Ok (Some exe), w') ->
  checked env cfg k exe w'.
Proof.
  intros He Hi H.
  change ((r <- for_candidates (satisfies env cfg k) (executables env k w) ;;
           or_else r
             (if negb (no_install cfg) then
                maybe_exe <- install ;;
                check_installed (satisfies env cfg k) maybe_exe
              else ret None)) w = (Ok (Some exe), w')) in H.
  apply or_else_inv in H. destruct H as [H|(w1 & _ & H)].
  - destruct (for_candidates_inv _ _ _ _ _ H) as (Hin & Ht & Hw).
    repeat split; try assumption. left. now exists w.
  - destruct (no_install cfg) eqn:Hn; simpl in H; [discriminate|].
    apply bind_inv_ok in H. destruct H as (maybe_exe & w2 & Hinst & H).
    apply check_installed_inv in H. destruct H as (p & -> & -> & Hm).
    repeat split; try reflexivity; try assumption.
    + now exists w2.
    + right. now exists install, p, w1, w2.
Qed.

Lemma ensureconda_checked w exe w' :
  ensureconda env cfg w = (Ok (Some exe), w') ->
  exists k, checked env cfg k exe w'.
Proof.
  unfold ensureconda. intros H.
  apply or_else_inv in H. destruct H as [H|(w1 & _ & H)].
  { destruct (mamba cfg) eqn:E; [|discriminate].
    exists Mamba. now apply (search_checked Mamba w). }
  apply or_else_inv in H. destruct H as [H|(w2 & _ & H)].
  { destruct (micromamba cfg) eqn:E; [|discriminate].
    exists Micromamba.
    now apply (search_install_checked Micromamba (install_micromamba env) w1). }
  apply or_else_inv in H. destruct H as [H|(w3 & _ & H)].
  { destruct (conda cfg) eqn:E; [|discriminate].
    exists Conda. now apply (search_checked Conda w2). }
  apply or_else_inv in H. destruct H as [H|(w4 & _ & H)]; [|discriminate].
  destruct (conda_exe cfg) eqn:E; [|discriminate].
  exists CondaStandalone.
  now apply (search_install_checked CondaStandalone (install_conda_exe env) w3).
Qed.

End Returned.

(** X1: a path that [ensureconda] returns is truthy, and the run ended with
    a check of that very path against the constraint of an enabled kind that
    came out true; the path is a candidate of that kind or the path its
    installer returned. *)
Theorem returned_executable_was_checked :
  forall (VL : VersionLib) (env : Env) (cfg : Config) (w w' : World)
         (exe : StrPath),
    ensureconda env cfg w = (Ok (Some exe), w') ->
    exists k, checked env cfg k exe w'.
Proof. intros VL env cfg w w' exe H. now apply (ensureconda_checked env cfg w). Qed.

Lemma returned_executable_was_checked_witness :
  exists k,
    checked (VL := Release.lib) Example.silent_first
      (Example.config false (Some [4; 8; 2]%N) (Some [0; 7; 3]%N))
      k Example.conda_b
      [Did (Run Example.conda_a); Did (Run Example.conda_b)].
Proof.
  apply (returned_executable_was_checked Release.lib Example.silent_first
           (Example.config false (Some [4; 8; 2]%N) (Some [0; 7; 3]%N)) []).
  reflexivity.
Defined.

(** ** What a search touches *)

Section Touches.

Context {VL : VersionLib}.
Variable env : Env.

Lemma is_run_of ev exe : op_of ev = Run exe -> is_run ev.
Proof. unfold is_run. now intros ->. Qed.

(** Without installation, only executables are run. *)
Lemma emits_ensureconda_no_install cfg :
  no_install cfg = true -> emits is_run (ensureconda env cfg).
Proof.
  intros Hn. unfold ensureconda. rewrite Hn. cbn [negb].
  repeat first
    [ apply emits_ret | apply emits_resolve
    | apply emits_or_else
    | apply emits_for_candidates; intro
    | apply emits_version_constraint_met
    | apply emits_determine_mamba_version; apply is_run_of
    | apply emits_determine_micromamba_version; apply is_run_of
    | apply emits_determine_conda_version; apply is_run_of
    | match goal with
      | |- emits _ (if ?b then _ else _) => destruct b
      end
    | apply emits_bind; [|intro] ].
Qed.

(** Without minimum versions no executable is run. *)
Lemma emits_ensureconda_no_minimum cfg :
  min_conda_version cfg = None -> min_mamba_version cfg = None ->
  emits not_a_run (ensureconda env cfg).
Proof.
  intros Hc Hm. unfold ensureconda. rewrite Hc, Hm.
  repeat first
    [ apply emits_ret | apply emits_resolve
    | apply emits_or_else
    | apply emits_for_candidates; intro
    | apply emits_check_installed; intro
    | apply emits_install_micromamba;
      [ apply net_event_not_a_run
      | intros; apply emits_write_executable; auto ]
    | apply emits_install_conda_exe;
      [ apply net_event_not_a_run
      | intros; apply emits_write_executable; auto ]
    | match goal with
      | |- emits _ (if ?b then _ else _) => destruct b
      end
    | apply emits_bind; [|intro] ].
Qed.

End Touches.

(** X2: when installation is not permitted, [ensureconda] does nothing but
    run executables: no request, no sleep, no operation on the file
    system. *)
Theorem no_install_only_probes :
  forall (VL : VersionLib) (env : Env) (cfg : Config) (w : World),
    no_install cfg = true ->
    Forall is_run (events_since w (snd (ensureconda env cfg w))).
Proof.
  intros VL env cfg w Hn.
  destruct (emits_ensureconda_no_install env cfg Hn w) as (evs & E & F).
  now rewrite E, events_since_app.
Qed.

Lemma no_install_only_probes_witness :
  Forall is_run
    (events_since []
       (snd (ensureconda (VL := Release.lib) Example.silent_first
               (Example.config false (Some [4; 8; 2]%N) (Some [0; 7; 3]%N))
               []))).
Proof.
  apply (no_install_only_probes Release.lib Example.silent_first). reflexivity.
Defined.

(** X3: when neither minimum version is given, [ensureconda] runs no
    executable at all, and if installation is not permitted either it leaves
    the trace as it is. *)
Theorem no_minimum_no_probe :
  forall (VL : VersionLib) (env : Env) (cfg : Config) (w : World),
    min_conda_version cfg = None ->
    min_mamba_version cfg = None ->
    Forall not_a_run (events_since w (snd (ensureconda env cfg w)))
    /\ (no_install cfg = true -> snd (ensureconda env cfg w) = w).
Proof.
  intros VL env cfg w Hc Hm.
  destruct (emits_ensureconda_no_minimum env cfg Hc Hm w) as (evs & E & F).
  split; [now rewrite E, events_since_app|].
  intros Hn.
  destruct (emits_ensureconda_no_install env cfg Hn w) as (evs' & E' & F').
  rewrite E in E'. apply app_inv_head in E'. subst evs'.
  destruct evs as [|ev evs]; [now rewrite E, app_nil_r|].
  inversion F as [|? ? Hev _]. inversion F' as [|? ? Hev' _].
  unfold not_a_run in Hev. unfold is_run in Hev'.
  now destruct (op_of ev).
Qed.

Lemma no_minimum_no_probe_witness :
  snd (ensureconda (VL := Release.lib) Example.broken_first
         (Example.config false None None) [])
  = [].
Proof.
  apply (proj2 (no_minimum_no_probe Release.lib Example.broken_first
                  (Example.config false None None) [] eq_refl eq_refl)).
  reflexivity.
Defined.

(** ** The command *)

Section CliProperties.

Context {VL : VersionLib}.
Variable env : Env.
Variable args : CliArgs.

Lemma returned_truthy cfg w exe w' :
  ensureconda env cfg w = (Ok (Some exe), w') -> truthy exe = true.
Proof.
  intros H. destruct (ensureconda_checked env cfg w exe w' H) as (k & Hk).
  apply Hk.
Qed.

Lemma cli_first_pass_found w exe w1 :
  ensureconda env (cli_config args true) w = (Ok (Some exe), w1) ->
  ensureconda_cli env args w = (Ok (success env exe), w1).
Proof.
  intros H. pose proof (returned_truthy _ _ _ _ H) as Ht.
  unfold ensureconda_cli. rewrite (bind_ok _ _ w _ w1 H).
  simpl found. rewrite Ht. cbn [negb andb].
  cbv beta iota delta [bind ret found]. now rewrite Ht.
Qed.

Lemma cli_first_pass_none w w1 :
  ensureconda env (cli_config args true) w = (Ok None, w1) ->
  ensureconda_cli env args w
  = if arg_no_install args then (Ok failure, w1)
    else match ensureconda env (cli_config args false) w1 with
         | (Ok (Some exe), w2) => (Ok (success env exe), w2)
         | (Ok None, w2) => (Ok failure, w2)
         | (Raise e, w2) => (Raise e, w2)
         end.
Proof.
  intros H. unfold ensureconda_cli. rewrite (bind_ok _ _ w _ w1 H).
  simpl found. cbn [negb andb].
  destruct (arg_no_install args); cbn [negb].
  - reflexivity.
  - destruct (ensureconda env (cli_config args false) w1)
      as [[[exe|]|e] w2] eqn:E.
    + rewrite (bind_ok _ _ w1 _ w2 E). unfold found.
      now rewrite (returned_truthy _ _ _ _ E).
    + now rewrite (bind_ok _ _ w1 _ w2 E).
    + now rewrite (bind_raise _ _ w1 _ w2 E).
Qed.

End CliProperties.





(** ** More on the retrying fetch *)

Section RetryMore.

Variable env : Env.
Variable url : string.

Lemma retry_loop_ok range : forall w resp w',
  retry_loop env url range w = (Ok resp, w') ->
  is_http_error resp = false
  /\ exists pre, w' = pre ++ [Did (Get url)]
                 /\ requests_get env pre url = Ok resp.
Proof.
  induction range as [|i range IH]; intros w resp w' H; simpl in H;
    [discriminate|].
  apply bind_inv_ok in H. destruct H as (r & w1 & Hget & H).
  unfold ask in Hget.
  destruct (requests_get env w url) as [r'|e] eqn:E; [|discriminate].
  injection Hget as -> <-.
  destruct (is_http_error r) eqn:Herr.
  - destruct (status_code r =? 500)%Z; [|discriminate].
    apply bind_inv_ok in H. destruct H as (u & w2 & _ & H).
    now apply (IH w2).
  - injection H as <- <-. split; [assumption|]. now exists w.
Qed.

Lemma sleeps_app evs1 evs2 :
  sleeps (evs1 ++ evs2) = (sleeps evs1 + sleeps evs2)%nat.
Proof. unfold sleeps. now rewrite filter_app, length_app. Qed.

Lemma total_sleep_app evs1 evs2 :
  total_sleep (evs1 ++ evs2) = (total_sleep evs1 + total_sleep evs2)%R.
Proof.
  induction evs1 as [|ev evs1 IH]; simpl; [lra|]. rewrite IH. lra.
Qed.

Lemma retry_loop_events range : forall w,
  exists evs, snd (retry_loop env url range w) = w ++ evs
              /\ Forall (retry_event url) evs
              /\ (sleeps evs <= attempts evs)%nat
              /\ (attempts evs <= List.length range)%nat.
Proof.
  induction range as [|i range IH]; intros w; simpl.
  - exists []. rewrite app_nil_r. repeat split; [constructor| |];
      apply Nat.le_refl || apply Nat.le_0_l.
  - unfold bind, ask. destruct (requests_get env w url) as [resp|e].
    + destruct (is_http_error resp);
        [destruct (status_code resp =? 500)%Z|].
      * unfold time_sleep.
        destruct (IH ((w ++ [Did (Get url)]) ++ [Did (Sleep i)]))
          as (evs & E & F & S & L).
        exists ([Did (Get url); Did (Sleep i)] ++ evs).
        rewrite E, <- !app_assoc. split; [reflexivity|].
        split; [repeat constructor; assumption|].
        rewrite attempts_app, sleeps_app. unfold attempts at 1 3, sleeps at 1.
        simpl. lia.
      * exists [Did (Get url)]. split; [reflexivity|].
        split; [repeat constructor|]. unfold attempts, sleeps. simpl. lia.
      * exists [Did (Get url)]. split; [reflexivity|].
        split; [repeat constructor|]. unfold attempts, sleeps. simpl. lia.
    + exists [Failed (Get url) e]. split; [reflexivity|].
      split; [repeat constructor|]. unfold attempts, sleeps. simpl. lia.
Qed.

Lemma total_sleep_each_15 evs :
  Forall (sleeps_within 0 10) evs ->
  total_sleep evs = (15 * INR (sleeps evs))%R.
Proof.
  induction 1 as [|ev evs Hev _ IH]; [simpl; unfold sleeps; simpl; lra|].
  change (ev :: evs) with ([ev] ++ evs).
  rewrite total_sleep_app, sleeps_app, plus_INR, IH.
  assert (E : total_sleep [ev] = (15 * INR (sleeps [ev]))%R).
  { destruct ev as [o|o e]; [destruct o|];
      unfold sleeps; simpl; unfold seconds; simpl; try lra.
    match goal with
    | |- context [retry_timeout ?i] =>
        destruct (Hev _ i eq_refl eq_refl) as [_ Hlt]
    end.
    rewrite retry_timeout_Rmax, Rmax_right;
      [lra | left; now apply retry_term_below_floor]. }
  rewrite E. lra.
Qed.

End RetryMore.

(** X6: a response that [request_url_with_retry] returns never carries an
    HTTP error status: it is the answer to the last request made, and that
    request is the last thing that happened. *)
Theorem returned_response_is_no_error :
  forall (env : Env) (url : string) (w w' : World) (resp : Response),
    request_url_with_retry env url w = (Ok resp, w') ->
    is_http_error resp = false
    /\ exists pre, w' = pre ++ [Did (Get url)]
                   /\ requests_get env pre url = Ok resp.
Proof.
  intros env url w w' resp H. now apply (retry_loop_ok env url (seq 0 10) w).
Qed.

Lemma returned_response_is_no_error_witness :
  is_http_error (Example.response 200 Example.listing) = false
  /\ exists pre,
      [Did (Get "https://host/files"); Did (Sleep 0);
       Did (Get "https://host/files")]
      = pre ++ [Did (Get "https://host/files")]
      /\ requests_get
           (Example.with_server
              [Example.response 500 []; Example.response 200 Example.listing]
              [])
           pre "https://host/files"
         = Ok (Example.response 200 Example.listing).
Proof.
  apply (returned_response_is_no_error
           (Example.with_server
              [Example.response 500 []; Example.response 200 Example.listing]
              [])
           "https://host/files" []).
  reflexivity.
Defined.

(** X7: [request_url_with_retry] does nothing but request the address it is
    given and sleep; it sleeps at most once per request, 15 seconds each
    time, hence never more than 150 seconds in all. *)
Theorem retry_total_sleep :
  forall (env : Env) (url : string) (w : World),
    let evs := events_since w (snd (request_url_with_retry env url w)) in
    Forall (retry_event url) evs
    /\ (sleeps evs <= attempts evs <= 10)%nat
    /\ total_sleep evs = (15 * INR (sleeps evs))%R
    /\ (total_sleep evs <= 150)%R.
Proof.
  intros env url w evs.
  destruct (retry_loop_events env url (seq 0 10) w) as (evs1 & E & F & S & L).
  destruct (emits_sleeps_within env url 10 0 w) as (evs2 & E2 & F2).
  rewrite E in E2. apply app_inv_head in E2. subst evs2.
  assert (Hevs : evs = evs1).
  { unfold evs, request_url_with_retry. now rewrite E, events_since_app. }
  rewrite Hevs. rewrite length_seq in L.
  pose proof (total_sleep_each_15 evs1 F2) as T.
  repeat split; try assumption.
  rewrite T.
  assert (Hs : (INR (sleeps evs1) <= INR 10)%R) by (apply le_INR; lia).
  simpl in Hs. lra.
Qed.

(** ** More on version probing *)

Section Text.

Import PyStr.

Lemma linebreak_is_space c : is_linebreak c = true -> isspace c = true.
Proof.
  destruct c as [[] [] [] [] [] [] [] []]; intros H;
    first [reflexivity | discriminate H].
Qed.

Lemma lstrip_head s :
  lstrip s = EmptyString
  \/ exists c t, lstrip s = String c t /\ isspace c = false.
Proof.
  induction s as [|c s IH]; simpl; [now left|].
  destruct (isspace c) eqn:E; [exact IH|]. right. now exists c, s.
Qed.

Lemma rstrip_head c t :
  isspace c = false -> exists t', rstrip (String c t) = String c t'.
Proof.
  intros H. simpl. destruct (rstrip t) as [|c' r].
  - rewrite H. now exists EmptyString.
  - now exists (String c' r).
Qed.

Lemma strip_head s :
  strip s = EmptyString
  \/ exists c t, strip s = String c t /\ isspace c = false.
Proof.
  unfold strip. destruct (lstrip_head s) as [->|(c & t & -> & H)];
    [now left|].
  right. destruct (rstrip_head c t H) as (t' & ->). now exists c, t'.
Qed.

Lemma splitlines_head c t :
  is_linebreak c = false ->
  exists l ls, splitlines (String c t) = String c l :: ls.
Proof.
  intros H. simpl. rewrite H. destruct (splitlines t) as [|l ls].
  - now exists EmptyString, [].
  - now exists l, ls.
Qed.

Lemma split_from_cur cur s : cur <> EmptyString -> split_from cur s <> [].
Proof.
  revert cur. induction s as [|c s IH]; intros cur H; simpl.
  - destruct cur; [now destruct H | discriminate].
  - destruct (isspace c).
    + destruct cur; [now destruct H | discriminate].
    + apply IH. now destruct cur.
Qed.

Lemma split_head c t : isspace c = false -> split (String c t) <> [].
Proof.
  intros H. unfold split. simpl. rewrite H. apply split_from_cur. discriminate.
Qed.

(** A line that begins with a character that is no white space has a last
    token. *)
Lemma last_token_exists c t :
  isspace c = false -> exists token, last_item (split (String c t)) = Some token.
Proof.
  intros H. destruct (last_item (split (String c t))) as [token|] eqn:E;
    [now exists token|].
  apply last_item_none in E. now destruct (split_head c t H).
Qed.

Lemma startswith_head line c p :
  startswith line (String c p) = true -> exists t, line = String c t.
Proof.
  unfold startswith. destruct line as [|c' t]; simpl; [discriminate|].
  destruct (Ascii.ascii_dec c c') as [->|]; [|discriminate].
  intros _. now exists t.
Qed.

(** The first line of a stripped text begins with a character that is no
    white space. *)
Lemma first_line_head s line rest :
  splitlines (strip s) = line :: rest ->
  exists c t, line = String c t /\ isspace c = false.
Proof.
  destruct (strip_head s) as [->|(c & t & -> & H)]; [discriminate|].
  assert (Hl : is_linebreak c = false).
  { destruct (is_linebreak c) eqn:E; [|reflexivity].
    apply linebreak_is_space in E. congruence. }
  destruct (splitlines_head c t Hl) as (l & ls & ->).
  intros [= <- _]. now exists c, l.
Qed.

Lemma lstrip_blank s : blank s = true -> lstrip s = EmptyString.
Proof.
  induction s as [|c s IH]; simpl; [reflexivity|].
  destruct (isspace c); [exact IH | discriminate].
Qed.

Lemma strip_blank s : blank s = true -> strip s = EmptyString.
Proof. intros H. unfold strip. now rewrite (lstrip_blank s H). Qed.

End Text.

Section ProbeOutcomes.

Context {VL : VersionLib}.
Variable env : Env.

Lemma Version_of_outcome exe s w :
  probe_outcome env exe (fst (Version_of s w)).
Proof.
  unfold Version_of. destruct (parse_version s) as [v|] eqn:E; simpl.
  - left. now exists v.
  - right. right. now exists s.
Qed.

Lemma version_of_line_outcome exe c t w :
  PyStr.isspace c = false ->
  probe_outcome env exe (fst (version_of_line (String c t) w)).
Proof.
  intros H. unfold version_of_line.
  destruct (last_token_exists c t H) as (token & ->).
  apply Version_of_outcome.
Qed.

Lemma determine_micromamba_version_outcome exe w :
  probe_outcome env exe (fst (determine_micromamba_version env exe w)).
Proof.
  unfold determine_micromamba_version, subprocess_check_output, bind, ask.
  destruct (check_output env w exe) as [out|e] eqn:E.
  - destruct (PyStr.splitlines (PyStr.strip out)) as [|line rest] eqn:El.
    + apply Version_of_outcome.
    + destruct (first_line_head out line rest El) as (c & t & -> & H).
      now apply version_of_line_outcome.
  - right. left. now exists e, w.
Qed.

Lemma determine_mamba_version_outcome exe w :
  probe_outcome env exe (fst (determine_mamba_version env exe w)).
Proof.
  unfold determine_mamba_version, subprocess_check_output, bind, ask.
  destruct (check_output env w exe) as [out|e] eqn:E.
  - destruct (find _ _) as [line|] eqn:Ef.
    + apply find_some in Ef. destruct Ef as [_ Ef].
      apply startswith_head in Ef. destruct Ef as (t & ->).
      now apply version_of_line_outcome.
    + apply determine_micromamba_version_outcome.
  - right. left. now exists e, w.
Qed.

Lemma determine_conda_version_outcome exe w :
  probe_outcome env exe (fst (determine_conda_version env exe w)).
Proof.
  unfold determine_conda_version, subprocess_check_output, bind, ask.
  destruct (check_output env w exe) as [out|e] eqn:E.
  - destruct (find _ _) as [line|] eqn:Ef.
    + apply find_some in Ef. destruct Ef as [_ Ef].
      apply startswith_head in Ef. destruct Ef as (t & ->).
      now apply version_of_line_outcome.
    + apply Version_of_outcome.
  - right. left. now exists e, w.
Qed.

Lemma determine_conda_version_rejected exe w out pre line post token :
  check_output env w exe = Ok out ->
  PyStr.splitlines (PyStr.strip out) = pre ++ line :: post ->
  (forall l, In l pre -> PyStr.startswith l "conda" = false) ->
  PyStr.startswith line "conda" = true ->
  PyStr.last_item (PyStr.split line) = Some token ->
  parse_version token = None ->
  determine_conda_version env exe w
  = (Raise (InvalidVersion token), w ++ [Did (Run exe)]).
Proof.
  intros Hout Hlines Hpre Hline Htok Hrej. unfold determine_conda_version.
  rewrite (bind_ok _ _ w out (w ++ [Did (Run exe)]))
    by (now apply ask_ok).
  rewrite Hlines, (find_first _ pre line post Hpre Hline).
  unfold version_of_line, Version_of. now rewrite Htok, Hrej.
Qed.

Lemma determine_micromamba_version_blank exe w out :
  check_output env w exe = Ok out ->
  blank out = true ->
  determine_micromamba_version env exe w
  = Version_of "0.0.0" (w ++ [Did (Run exe)]).
Proof.
  intros Hout Hb. unfold determine_micromamba_version.
  rewrite (bind_ok _ _ w out (w ++ [Did (Run exe)]))
    by (now apply ask_ok).
  now rewrite (strip_blank out Hb).
Qed.

End ProbeOutcomes.

(** X8: probing an executable, of whatever kind, comes to a version, or to
    the exception of a run of that executable, or to [InvalidVersion] for a
    string the version parser rejects.  Taking the last token of the version
    line never fails: [IndexError] can only come out of the subprocess. *)
Theorem probing_outcomes :
  forall (VL : VersionLib) (env : Env) (k : ToolKind) (exe : StrPath)
         (w : World),
    probe_outcome env exe (fst (prober env k exe w))
    /\ ((forall w', check_output env w' exe <> Raise IndexError) ->
        fst (prober env k exe w) <> Raise IndexError).
Proof.
  intros VL env k exe w.
  assert (H : probe_outcome env exe (fst (prober env k exe w))).
  { destruct k; simpl;
      [ apply determine_mamba_version_outcome
      | apply determine_micromamba_version_outcome
      | apply determine_conda_version_outcome
      | apply determine_conda_version_outcome ]. }
  split; [exact H|].
  intros Hrun E. rewrite E in H.
  destruct H as [(v & H)|[(e & w' & Hc & H)|(s & _ & H)]]; try discriminate.
  injection H as <-. now apply (Hrun w').
Qed.

Lemma probing_outcomes_witness :
  fst (prober (VL := Release.lib) ExampleProbe.garbled_first Conda
         Example.conda_a [])
  <> Raise IndexError.
Proof.
  apply (proj2 (probing_outcomes Release.lib ExampleProbe.garbled_first Conda
                  Example.conda_a [])).
  intros w'. discriminate.
Defined.

(** X9: when the conda line of the output ends in a token that the version
    parser rejects, [determine_conda_version] raises [InvalidVersion] for
    that token, and the loop over the candidates of conda or of
    conda-standalone raises it too, without looking at the candidates that
    follow: unlike a missing conda line, a conda line without a version is
    not answered with the version 0.0.0. *)
Theorem unparseable_conda_version_raises :
  forall (VL : VersionLib) (env : Env) (cfg : Config) (k : ToolKind)
         (exe : StrPath) (rest : list StrPath) (w : World)
         (out : string) (pre : list string) (line : string)
         (post : list string) (token : string) (m : Version),
    (k = Conda \/ k = CondaStandalone) ->
    min_conda_version cfg = Some m ->
    truthy exe = true ->
    check_output env w exe = Ok out ->
    PyStr.splitlines (PyStr.strip out) = pre ++ line :: post ->
    (forall l, In l pre -> PyStr.startswith l "conda" = false) ->
    PyStr.startswith line "conda" = true ->
    PyStr.last_item (PyStr.split line) = Some token ->
    parse_version token = None ->
    let w1 := w ++ [Did (Run exe)] in
    determine_conda_version env exe w = (Raise (InvalidVersion token), w1)
    /\ for_candidates (satisfies env cfg k) (exe :: rest) w
       = (Raise (InvalidVersion token), w1).
Proof.
  intros VL env cfg k exe rest w out pre line post token m Hk Hm Ht Hout
    Hlines Hpre Hline Htok Hrej w1.
  pose proof (determine_conda_version_rejected env exe w out pre line post
                token Hout Hlines Hpre Hline Htok Hrej) as E.
  split; [exact E|].
  apply for_candidates_raise; [assumption|].
  unfold satisfies.
  assert (Hc : constraint cfg k = Some m) by (destruct Hk as [->| ->]; exact Hm).
  rewrite Hc. apply version_constraint_met_raise.
  destruct Hk as [->| ->]; exact E.
Qed.

Lemma unparseable_conda_version_raises_witness :
  for_candidates
    (satisfies (VL := Release.lib) ExampleProbe.garbled_first
       (Example.config false (Some [4; 8; 2]%N) (Some [0; 7; 3]%N)) Conda)
    [Example.conda_a; Example.conda_b] []
  = (Raise (InvalidVersion "found"), [Did (Run Example.conda_a)]).
Proof.
  apply (proj2 (unparseable_conda_version_raises Release.lib
                  ExampleProbe.garbled_first
                  (Example.config false (Some [4; 8; 2]%N) (Some [0; 7; 3]%N))
                  Conda Example.conda_a [Example.conda_b] []
                  "conda: command not found" [] "conda: command not found" []
                  "found" [4; 8; 2]%N
                  (or_introl eq_refl) eq_refl eq_refl eq_refl eq_refl
                  (fun l H => match H with end) eq_refl eq_refl eq_refl)).
Defined.

(** X10: an executable that prints nothing, or white space only, is given
    the version 0.0.0 by [determine_micromamba_version] after one run, and
    by [determine_mamba_version] after two runs when the second run prints
    white space only as well. *)
Theorem blank_output_is_version_zero :
  forall (VL : VersionLib) (HL : VersionLaws VL) (env : Env)
         (exe : StrPath) (w : World) (out : string),
    check_output env w exe = Ok out ->
    blank out = true ->
    let w1 := w ++ [Did (Run exe)] in
    determine_micromamba_version env exe w = (Ok vzero, w1)
    /\ forall out2,
        check_output env w1 exe = Ok out2 ->
        blank out2 = true ->
        determine_mamba_version env exe w
        = (Ok vzero, w1 ++ [Did (Run exe)]).
Proof.
  intros VL HL env exe w out Hout Hb w1.
  assert (Z : forall w', Version_of "0.0.0" w' = (Ok vzero, w'))
    by (intros w'; unfold Version_of; now rewrite parse_zero).
  split.
  - now rewrite (determine_micromamba_version_blank env exe w out Hout Hb).
  - intros out2 Hout2 Hb2.
    rewrite (determine_mamba_version_fallback env exe w out Hout).
    + now rewrite (determine_micromamba_version_blank env exe w1 out2 Hout2 Hb2).
    + rewrite (strip_blank out Hb). intros l [].
Qed.

Lemma blank_output_is_version_zero_witness :
  determine_micromamba_version (VL := Release.lib) ExampleProbe.mute
    Example.mamba_a []
  = (Ok [], [Did (Run Example.mamba_a)]).
Proof.
  apply (proj1 (blank_output_is_version_zero Release.lib ReleaseLaws.laws
                  ExampleProbe.mute Example.mamba_a [] Example.nl
                  eq_refl eq_refl)).
Defined.

(** ** More on the extraction of the executable *)

Lemma find_last {A} (f : A -> bool) pre x post :
  f x = true -> (forall y, In y post -> f y = false) ->
  find f (rev (pre ++ x :: post)) = Some x.
Proof.
  intros Hx Hpost. rewrite rev_app_distr. simpl. rewrite <- app_assoc. simpl.
  apply find_first; [|assumption].
  intros y Hy. apply Hpost. now apply in_rev.
Qed.

Lemma find_split {A} (f : A -> bool) l x :
  find f l = Some x ->
  exists l1 l2, l = l1 ++ x :: l2 /\ f x = true
                /\ forall y, In y l1 -> f y = false.
Proof.
  induction l as [|a l IH]; simpl; [discriminate|].
  destruct (f a) eqn:E.
  - intros [= ->]. exists [], l. repeat split; [assumption | intros y []].
  - intros H. destruct (IH H) as (l1 & l2 & -> & Hx & Hl1).
    exists (a :: l1), l2. repeat split; [assumption|].
    intros y [<-|Hy]; [assumption | now apply Hl1].
Qed.

Lemma find_rev_split {A} (f : A -> bool) l x :
  find f (rev l) = Some x ->
  exists pre post, l = pre ++ x :: post /\ f x = true
                   /\ forall y, In y post -> f y = false.
Proof.
  intros H. destruct (find_split f (rev l) x H) as (l1 & l2 & E & Hx & Hl1).
  exists (rev l2), (rev l1). repeat split; [|assumption|].
  - rewrite <- (rev_involutive l), E, rev_app_distr. simpl.
    now rewrite <- app_assoc.
  - intros y Hy. apply Hl1. now apply in_rev.
Qed.

Section Extraction.

Variable env : Env.

Lemma extractfile_missing members filename w :
  (forall m, In m members -> fst m <> filename) ->
  extractfile members filename w = (Raise (KeyError filename), w).
Proof.
  intros H. unfold extractfile.
  assert (E : find (fun m => String.eqb (fst m) filename) (rev members) = None).
  { apply find_none_iff. intros m Hm. apply String.eqb_neq, H.
    now apply in_rev. }
  now rewrite E.
Qed.

Lemma extractfile_last members filename pre member post w :
  members = pre ++ (filename, member) :: post ->
  (forall m, In m post -> fst m <> filename) ->
  extractfile members filename w
  = (Ok (match member with RegFile data => Some data | NotAFile => None end),
     w).
Proof.
  intros -> H. unfold extractfile.
  rewrite (find_last (fun m => String.eqb (fst m) filename)
             pre (filename, member) post).
  - now destruct member.
  - apply String.eqb_refl.
  - intros m Hm. apply String.eqb_neq. now apply H.
Qed.

End Extraction.

(** X11: [extract_files_from_tar_bz2] leaves the world as it is when the
    archive cannot be opened (the error of the archive), when it has no
    member of the name ([KeyError]) and when the member is no regular file
    ([RuntimeError]).  Of several members of the name the last one counts,
    and its content is what is handed to the writer of executables. *)
Theorem extract_files_errors_touch_nothing :
  forall (env : Env) (tarball : bytes) (filename dest_filename : string)
         (w : World),
    (forall e, tarfile_open env tarball = Raise e ->
               extract_files_from_tar_bz2 env tarball filename dest_filename w
               = (Raise e, w))
    /\ (forall members,
           tarfile_open env tarball = Ok members ->
           ((forall m, In m members -> fst m <> filename) ->
            extract_files_from_tar_bz2 env tarball filename dest_filename w
            = (Raise (KeyError filename), w))
           /\ (forall pre member post,
                  members = pre ++ (filename, member) :: post ->
                  (forall m, In m post -> fst m <> filename) ->
                  extract_files_from_tar_bz2 env tarball filename
                    dest_filename w
                  = match member with
                    | RegFile data =>
                        write_executable_from_file_object env (Some data)
                          dest_filename w
                    | NotAFile =>
                        (Raise (RuntimeError "Could not extract executable!"),
                         w)
                    end)).
Proof.
  intros env tarball filename dest w. split.
  - intros e H. unfold extract_files_from_tar_bz2, bind, lift. now rewrite H.
  - intros members H. split.
    + intros Hnone. unfold extract_files_from_tar_bz2.
      rewrite (bind_ok (lift (tarfile_open env tarball)) _ w members w)
        by (unfold lift; now rewrite H).
      now rewrite (bind_raise _ _ w _ w
                     (extractfile_missing members filename w Hnone)).
    + intros pre member post Hm Hpost. unfold extract_files_from_tar_bz2.
      rewrite (bind_ok (lift (tarfile_open env tarball)) _ w members w)
        by (unfold lift; now rewrite H).
      rewrite (bind_ok _ _ w _ w
                 (extractfile_last members filename pre member post w
                    Hm Hpost)).
      now destruct member.
Qed.

Lemma extract_files_errors_touch_nothing_witness :
  extract_files_from_tar_bz2
    (Example.with_server [] [("bin/conda", RegFile [])])
    [] "bin/micromamba" "micromamba" []
  = (Raise (KeyError "bin/micromamba"), []).
Proof.
  apply (proj1 (proj2 (extract_files_errors_touch_nothing
                         (Example.with_server [] [("bin/conda", RegFile [])])
                         [] "bin/micromamba" "micromamba" [])
                  [("bin/conda", RegFile [])] eq_refl)).
  intros m [<-|[]]. discriminate.
Defined.

(** ** More on the installers *)

Lemma last_item_snoc {A} (l : list A) x : PyStr.last_item (l ++ [x]) = Some x.
Proof. unfold PyStr.last_item. now rewrite rev_app_distr. Qed.

Lemma try_finally_inv_ok {A} (body : M A) (fin : M unit) w a w' :
  try_finally body fin w = (Ok a, w') ->
  exists w1, body w = (Ok a, w1) /\ fin w1 = (Ok tt, w').
Proof.
  unfold try_finally. destruct (body w) as [r w1].
  destruct (fin w1) as [[[]|e] w2] eqn:E; [|discriminate].
  intros [= -> <-]. now exists w1.
Qed.

Lemma perform_inv_ok env o w w' :
  perform env o w = (Ok tt, w') -> fault env w o = None /\ w' = w ++ [Did o].
Proof.
  unfold perform. destruct (fault env w o); [discriminate|].
  now intros [= <-].
Qed.

Lemma perform_ok env o w :
  fault env w o = None -> perform env o w = (Ok tt, w ++ [Did o]).
Proof. unfold perform. now intros ->. Qed.

Lemma perform_raise env o w e :
  fault env w o = Some e -> perform env o w = (Raise e, w ++ [Failed o e]).
Proof. unfold perform. now intros ->. Qed.

Lemma ask_inv_ok {A} o (answer : World -> Result A) w a w' :
  ask o answer w = (Ok a, w') -> answer w = Ok a /\ w' = w ++ [Did o].
Proof.
  unfold ask. destruct (answer w); [|discriminate]. now intros [= <- <-].
Qed.

Section Installed.

Variable env : Env.

(** A path that no temporary file can have. *)
Lemma temp_is_not_nil :
  forall w', path_div (site_path env) (uuid4_hex env w') <> [].
Proof. intros w' H. apply app_eq_nil in H. now destruct H. Qed.

(** What a run of the writer that returns has done. *)
Lemma write_executable_ok fo dest w p w' :
  write_executable_from_file_object env fo dest w = (Ok p, w') ->
  let target := path_div (site_path env) dest in
  let lock := (path_str (path_sep env) target ++ ".lock")%string in
  p = target
  /\ exists data hex st_mode rel,
      fo = Some data /\ op_of rel = LockRelease lock
      /\ w' = w ++ placement (site_path env) lock
                     (path_div (site_path env) hex) target data st_mode rel.
Proof.
  intros H target lock.
  destruct (write_executable_trace env fo dest w [] temp_is_not_nil)
    as (evs & hex & E & _ & _ & _ & Hr & Hok).
  rewrite H in E, Hok. simpl in E, Hok.
  destruct (Hok p eq_refl) as [-> Hin]. split; [reflexivity|].
  destruct (Hr _ _ Hin) as (data & st & rel & Hfo & Hrel & Hevs).
  exists data, hex, st, rel. repeat split; try assumption.
  now rewrite E, Hevs.
Qed.

Lemma stream_loop_missing members dest w :
  (forall m, In m members -> fst m <> "standalone_conda/conda.exe") ->
  stream_loop env members dest w
  = (Raise (RuntimeError
              "Could not find conda.exe in the conda-standalone package"), w).
Proof.
  induction members as [|[n m] members IH]; intros H; simpl; [reflexivity|].
  assert (E : String.eqb n "standalone_conda/conda.exe" = false)
    by (apply String.eqb_neq, (H (n, m)); now left).
  rewrite E. apply IH. intros m' Hm'. apply H. now right.
Qed.

Lemma stream_loop_ok members dest : forall w p w',
  stream_loop env members dest w = (Ok p, w') ->
  exists pre member post,
    members = pre ++ ("standalone_conda/conda.exe", member) :: post
    /\ (forall m, In m pre -> fst m <> "standalone_conda/conda.exe")
    /\ write_executable_from_file_object env
         (match member with RegFile data => Some data | NotAFile => None end)
         dest w
       = (Ok p, w').
Proof.
  induction members as [|[n m] members IH]; intros w p w' H; simpl in H;
    [discriminate|].
  destruct (String.eqb n "standalone_conda/conda.exe") eqn:E.
  - apply String.eqb_eq in E. subst n.
    exists [], m, members.
    split; [reflexivity|]. split; [intros m' []|assumption].
  - destruct (IH _ _ _ H) as (pre & member & post & -> & Hpre & Hw).
    exists ((n, m) :: pre), member, post.
    split; [reflexivity|]. split; [|assumption].
    intros m' [<-|Hm']; [now apply String.eqb_neq | now apply Hpre].
Qed.

Lemma emits_stream_body url dest :
  emits (fun _ => True)
    (members <- ask (CondaStream url) (fun w => conda_stream env w url) ;;
     stream_loop env members dest).
Proof.
  apply emits_bind; [now apply emits_ask|]. intros members.
  apply emits_stream_loop.
  intros fo d. now apply emits_write_executable.
Qed.

End Installed.

(** X12: once [stream_conda_executable] has opened the reader of the
    package, closing it is the last thing it does, whatever happened in
    between.  When the stream has no member [standalone_conda/conda.exe],
    nothing is written: the events are those of the network, and the outcome
    is the [RuntimeError] of the missing member, or the exception of closing
    the reader when that fails. *)
Theorem stream_closes_reader :
  forall (env : Env) (url : string) (w : World),
    let run := stream_conda_executable env url w in
    let evs := events_since w (snd run) in
    (In (Did (CondaOpen url)) evs ->
     option_map op_of (PyStr.last_item evs) = Some (CondaClose url))
    /\ (forall members,
           fault env w (CondaOpen url) = None ->
           conda_stream env (w ++ [Did (CondaOpen url)]) url = Ok members ->
           (forall m, In m members ->
                      fst m <> "standalone_conda/conda.exe") ->
           Forall net_event evs
           /\ fst run
              = Raise
                  (match fault env
                           (w ++ [Did (CondaOpen url); Did (CondaStream url)])
                           (CondaClose url) with
                   | Some e => e
                   | None =>
                       RuntimeError
                         "Could not find conda.exe in the conda-standalone package"
                   end)).
Proof.
  intros env url w run evs. split.
  - unfold evs, run, stream_conda_executable.
    destruct (fault env w (CondaOpen url)) as [e|] eqn:E.
    + rewrite (bind_raise _ _ w e _ (perform_raise env _ w e E)).
      simpl. rewrite events_since_app. intros [H|[]]. discriminate.
    + rewrite (bind_ok _ _ w tt _ (perform_ok env _ w E)).
      intros _. unfold try_finally.
      destruct (emits_stream_body env url
                  ("conda_standalone" ++ exe_suffix env)%string
                  (w ++ [Did (CondaOpen url)])) as (evsb & Eb & _).
      destruct ((members <- ask (CondaStream url)
                              (fun w0 => conda_stream env w0 url) ;;
                 stream_loop env members
                   ("conda_standalone" ++ exe_suffix env)%string)
                  (w ++ [Did (CondaOpen url)])) as [r w2].
      simpl in Eb. subst w2.
      unfold perform.
      destruct (fault env ((w ++ [Did (CondaOpen url)]) ++ evsb)
                  (CondaClose url)) as [e|]; simpl;
        rewrite <- !app_assoc, events_since_app, !app_assoc, last_item_snoc;
        reflexivity.
  - intros members Hopen Hstream Hnone.
    assert (R : run
                = match fault env
                          (w ++ [Did (CondaOpen url); Did (CondaStream url)])
                          (CondaClose url) with
                  | Some e =>
                      (Raise e,
                       w ++ [Did (CondaOpen url); Did (CondaStream url);
                             Failed (CondaClose url) e])
                  | None =>
                      (Raise (RuntimeError
                                "Could not find conda.exe in the conda-standalone package"),
                       w ++ [Did (CondaOpen url); Did (CondaStream url);
                             Did (CondaClose url)])
                  end).
    { unfold run, stream_conda_executable, bind, perform, try_finally, ask.
      rewrite Hopen, Hstream, (stream_loop_missing env members _ _ Hnone).
      rewrite <- ?app_assoc. simpl.
      destruct (fault env _ (CondaClose url));
        rewrite <- ?app_assoc; reflexivity. }
    unfold evs. rewrite R.
    destruct (fault env _ (CondaClose url)); simpl;
      rewrite events_since_app; (split; [repeat constructor|reflexivity]).
Qed.

Lemma stream_closes_reader_witness :
  let env := Example.with_server [] [("info/index.json", RegFile [])] in
  fst (stream_conda_executable env "https://host/pkg.conda" [])
  = Raise (RuntimeError
             "Could not find conda.exe in the conda-standalone package").
Proof.
  intros env.
  apply (proj2 (proj2 (stream_closes_reader env "https://host/pkg.conda" [])
                  [("info/index.json", RegFile [])] eq_refl eq_refl
                  (fun m H => match H with
                              | or_introl E =>
                                  match E with
                                  | eq_refl => fun A => ltac:(discriminate A)
                                  end
                              | or_intror F => match F with end
                              end))).
Defined.

(** X13: when [stream_conda_executable] returns, it returns the path
    [conda_standalone] (with the suffix of the host) in the directory of the
    installer; what it wrote there is the content of the first member
    [standalone_conda/conda.exe] of the stream, and the trace is: reader
    opened, stream read, the placement of that content, reader closed. *)
Theorem stream_installs_first_member :
  forall (env : Env) (url : string) (w w' : World) (p : Path),
    stream_conda_executable env url w = (Ok p, w') ->
    let target :=
      path_div (site_path env) ("conda_standalone" ++ exe_suffix env) in
    let lock := (path_str (path_sep env) target ++ ".lock")%string in
    p = target
    /\ exists members pre data post hex st_mode rel,
        conda_stream env (w ++ [Did (CondaOpen url)]) url = Ok members
        /\ members = pre ++ ("standalone_conda/conda.exe", RegFile data) :: post
        /\ (forall m, In m pre -> fst m <> "standalone_conda/conda.exe")
        /\ op_of rel = LockRelease lock
        /\ w' = w ++ [Did (CondaOpen url); Did (CondaStream url)]
                  ++ placement (site_path env) lock
                       (path_div (site_path env) hex) target data st_mode rel
                  ++ [Did (CondaClose url)].
Proof.
  intros env url w w' p H target lock.
  unfold stream_conda_executable in H.
  apply bind_inv_ok in H. destruct H as ([] & w1 & Hopen & H).
  apply perform_inv_ok in Hopen. destruct Hopen as [_ ->].
  apply try_finally_inv_ok in H. destruct H as (w2 & Hbody & Hclose).
  apply perform_inv_ok in Hclose. destruct Hclose as [_ ->].
  apply bind_inv_ok in Hbody. destruct Hbody as (members & w3 & Hs & Hloop).
  apply ask_inv_ok in Hs. destruct Hs as [Hs ->].
  destruct (stream_loop_ok env members _ _ _ _ Hloop)
    as (pre & member & post & Hm & Hpre & Hw).
  destruct (write_executable_ok env _ _ _ _ _ Hw)
    as (-> & data & hex & st & rel & Hfo & Hrel & ->).
  split; [reflexivity|].
  destruct member as [data'|]; [|discriminate]. injection Hfo as ->.
  exists members, pre, data, post, hex, st, rel.
  repeat split; try assumption.
  now rewrite <- !app_assoc.
Qed.

Lemma stream_installs_first_member_witness :
  let env := Example.with_server [] Example.package in
  exists members pre data post hex st_mode rel,
    conda_stream env ([] ++ [Did (CondaOpen "https://host/pkg.conda")])
      "https://host/pkg.conda" = Ok members
    /\ members = pre ++ ("standalone_conda/conda.exe", RegFile data) :: post
    /\ (forall m, In m pre -> fst m <> "standalone_conda/conda.exe")
    /\ op_of rel
       = LockRelease
           (path_str (path_sep env)
              (path_div (site_path env) ("conda_standalone" ++ exe_suffix env))
            ++ ".lock")
    /\ snd (stream_conda_executable env "https://host/pkg.conda" [])
       = [] ++ [Did (CondaOpen "https://host/pkg.conda");
                Did (CondaStream "https://host/pkg.conda")]
            ++ placement (site_path env)
                 (path_str (path_sep env)
                    (path_div (site_path env)
                       ("conda_standalone" ++ exe_suffix env))
                  ++ ".lock")
                 (path_div (site_path env) hex)
                 (path_div (site_path env)
                    ("conda_standalone" ++ exe_suffix env))
                 data st_mode rel
            ++ [Did (CondaClose "https://host/pkg.conda")].
Proof.
  intros env.
  apply (proj2 (stream_installs_first_member env "https://host/pkg.conda" []
                  (snd (stream_conda_executable env "https://host/pkg.conda"
                          []))
                  (path_div (site_path env)
                     ("conda_standalone" ++ exe_suffix env))
                  eq_refl)).
Defined.

(** X14: when [install_micromamba] returns, it returns a path and never
    [None]: the path [micromamba] (with the suffix of the host) in the
    directory of the installer.  What it wrote there is the content of the
    last member [bin/micromamba] (on Windows [Library/bin/micromamba.exe]) of
    the archive that the fetch returned, and after the fetch the trace is the
    placement of that content. *)
Theorem micromamba_installs_archive_member :
  forall (env : Env) (w w' : World) (r : option Path),
    install_micromamba env w = (Ok r, w') ->
    let target := path_div (site_path env) ("micromamba" ++ exe_suffix env) in
    let lock := (path_str (path_sep env) target ++ ".lock")%string in
    let filename := if is_windows env then "Library/bin/micromamba.exe"
                    else "bin/micromamba" in
    let url := ("https://micro.mamba.pm/api/micromamba/"
                ++ platform_subdir env ++ "/latest")%string in
    r = Some target
    /\ exists resp w1 members pre data post hex st_mode rel,
        request_url_with_retry env url w = (Ok resp, w1)
        /\ tarfile_open env (content resp) = Ok members
        /\ members = pre ++ (filename, RegFile data) :: post
        /\ (forall m, In m post -> fst m <> filename)
        /\ op_of rel = LockRelease lock
        /\ w' = w1 ++ placement (site_path env) lock
                        (path_div (site_path env) hex) target data st_mode rel.
Proof.
  intros env w w' r H target lock filename url.
  unfold install_micromamba in H. cbv zeta in H.
  apply bind_inv_ok in H. destruct H as (resp & w1 & Hreq & H).
  apply bind_inv_ok in H. destruct H as (p & w2 & Hext & H).
  injection H as <- <-.
  unfold extract_files_from_tar_bz2 in Hext.
  apply bind_inv_ok in Hext. destruct Hext as (members & w3 & Hopen & Hext).
  unfold lift in Hopen. cbv beta in Hopen. injection Hopen as Hopen <-.
  apply bind_inv_ok in Hext. destruct Hext as (fo & w4 & Hfile & Hext).
  unfold extractfile in Hfile. fold filename in Hfile.
  destruct (find (fun m => String.eqb (fst m) filename) (rev members))
    as [[n member]|] eqn:Ef; [|unfold raise in Hfile; discriminate].
  destruct (find_rev_split _ _ _ Ef) as (pre & post & Hm & Hn & Hpost).
  simpl in Hn. apply String.eqb_eq in Hn. subst n.
  assert (Hfo : fo = match member with
                     | RegFile data => Some data
                     | NotAFile => None
                     end /\ w4 = w1)
    by (destruct member; unfold ret in Hfile;
        injection Hfile as <- <-; split; reflexivity).
  destruct Hfo as [-> ->].
  destruct member as [data|]; [|discriminate].
  destruct (write_executable_ok env _ _ _ _ _ Hext)
    as (-> & data' & hex & st & rel & Hfo & Hrel & ->).
  injection Hfo as <-.
  split; [reflexivity|].
  exists resp, w1, members, pre, data, post, hex, st, rel.
  repeat split; try assumption.
  intros m Hin. apply String.eqb_neq. now apply Hpost.
Qed.

Lemma micromamba_installs_archive_member_witness :
  let env := Example.with_server [Example.response 200 []]
               [("bin/micromamba", RegFile [Byte.x7f; Byte.x45])] in
  fst (install_micromamba env [])
  = Ok (Some (path_div (site_path env) ("micromamba" ++ exe_suffix env))).
Proof.
  intros env.
  destruct (install_micromamba env []) as [[r|e] w'] eqn:E;
    [|discriminate E].
  simpl. f_equal.
  apply (proj1 (micromamba_installs_archive_member env [] w' r E)).
Defined.

(** ** Which record [install_conda_exe] chooses *)

Section LastOfSorted.

Context {VL : VersionLib} {A : Type}.

Lemma insert_sorted_after (x : SortKey * A) l :
  (forall y, In y l -> key_lt (fst y) (fst x) = true) ->
  insert_sorted x l = l ++ [x].
Proof.
  induction l as [|y l IH]; intros H; simpl; [reflexivity|].
  rewrite (H y (or_introl eq_refl)), IH; [reflexivity|].
  intros z Hz. apply H. now right.
Qed.

Lemma insert_sorted_keeps_last (x : SortKey * A) l m :
  PyStr.last_item l = Some m -> key_lt (fst m) (fst x) = false ->
  PyStr.last_item (insert_sorted x l) = Some m.
Proof.
  induction l as [|y l IH]; intros Hl Hm; [discriminate Hl|].
  simpl. destruct (key_lt (fst y) (fst x)) eqn:E.
  - rewrite last_item_cons in Hl. rewrite last_item_cons.
    destruct (PyStr.last_item l) as [m'|] eqn:El.
    + injection Hl as ->. now rewrite (IH eq_refl Hm).
    + injection Hl as ->. congruence.
  - rewrite last_item_cons, Hl. reflexivity.
Qed.

Lemma stable_sort_last pre (c : SortKey * A) post :
  (forall y, In y pre -> key_lt (fst c) (fst y) = false) ->
  (forall y, In y post -> key_lt (fst y) (fst c) = true) ->
  PyStr.last_item (stable_sort (pre ++ c :: post)) = Some c.
Proof.
  intros Hpre Hpost. induction pre as [|x pre IH]; simpl.
  - rewrite insert_sorted_after.
    + apply last_item_snoc.
    + intros y Hy. apply Hpost. now apply stable_sort_In.
  - apply insert_sorted_keeps_last.
    + apply IH. intros y Hy. apply Hpre. now right.
    + apply Hpre. now left.
Qed.

End LastOfSorted.

(** X15: of the records for the host, [install_conda_exe] downloads the one
    that has no record of a greater key before it in the listing and only
    records of a smaller key after it: among the records that share the
    greatest key (version, build number, timestamp) the one listed last. *)
Theorem equal_keys_last_listed_wins :
  forall (VL : VersionLib) (env : Env) (w w1 : World) (resp : Response)
         (infos pre : list AnacondaPkg) (chosen : AnacondaPkg)
         (post : list AnacondaPkg) (kc : SortKey),
    request_url_with_retry env (listing_url env) w = (Ok resp, w1) ->
    json resp = Ok infos ->
    for_host env infos = pre ++ chosen :: post ->
    key_of chosen = Some kc ->
    (forall r, In r pre ->
               exists kr, key_of r = Some kr /\ key_lt kc kr = false) ->
    (forall r, In r post ->
               exists kr, key_of r = Some kr /\ key_lt kr kc = true) ->
    install_conda_exe env w = download env chosen w1.
Proof.
  intros VL env w w1 resp infos pre chosen post kc Hreq Hjson Hhost Hkc
    Hpre Hpost.
  rewrite (install_conda_exe_listed env w resp w1 infos Hreq Hjson).
  destruct (keyed_ok (for_host env infos) w1) as (ks & E & Hm & Hk).
  { rewrite Hhost. intros r Hr. apply in_app_or in Hr.
    destruct Hr as [Hr|[<-|Hr]]; [| congruence |].
    - destruct (Hpre r Hr) as (kr & -> & _). discriminate.
    - destruct (Hpost r Hr) as (kr & -> & _). discriminate. }
  rewrite Hhost in Hm.
  apply map_eq_app in Hm. destruct Hm as (kpre & krest & -> & Hmpre & Hm).
  apply map_eq_cons in Hm. destruct Hm as (c & kpost & -> & Hc & Hmpost).
  rewrite Forall_forall in Hk.
  assert (Ec : c = (kc, chosen)).
  { pose proof (Hk c) as H. rewrite Hc, Hkc in H.
    destruct c as [k r]. simpl in *. subst r. f_equal.
    assert (Some kc = Some k) as [= ->]
      by (apply H, in_or_app; right; now left).
    reflexivity. }
  subst c.
  assert (Hlast : PyStr.last_item (stable_sort (kpre ++ (kc, chosen) :: kpost))
                  = Some (kc, chosen)).
  { apply stable_sort_last; simpl.
    - intros y Hy. destruct (Hpre (snd y)) as (kr & Hkr & Hlt).
      + rewrite <- Hmpre. now apply in_map.
      + rewrite (Hk y) in Hkr by (apply in_or_app; now left).
        injection Hkr as ->. exact Hlt.
    - intros y Hy. destruct (Hpost (snd y)) as (kr & Hkr & Hlt).
      + rewrite <- Hmpost. now apply in_map.
      + rewrite (Hk y) in Hkr by (apply in_or_app; right; now right).
        injection Hkr as ->. exact Hlt. }
  unfold sort_candidates.
  rewrite (bind_ok _ _ w1 _ w1 (bind_ok _ _ w1 _ w1 E)).
  unfold ret. rewrite last_item_map, Hlast. simpl.
  destruct (stable_sort (kpre ++ (kc, chosen) :: kpost)) eqn:Es;
    [discriminate Hlast | reflexivity].
Qed.

Lemma equal_keys_last_listed_wins_witness :
  let env := Example.with_server
               [Example.response 200 ExampleTie.listing] Example.package in
  install_conda_exe (VL := Release.lib) env []
  = download env ExampleTie.last_listed [Did (Get (listing_url env))].
Proof.
  intros env.
  apply (equal_keys_last_listed_wins Release.lib env []
           [Did (Get (listing_url env))]
           (Example.response 200 ExampleTie.listing) ExampleTie.listing
           [Example.older; ExampleTie.first_listed] ExampleTie.last_listed []
           ([1; 2]%N, 0%Z, 50%Z) eq_refl eq_refl eq_refl eq_refl).
  - intros r [<-|[<-|[]]].
    + eexists. split; reflexivity.
    + eexists. split; reflexivity.
  - intros r [].
Defined.
